(** * privy-share: the authentication core

    A shallow embedding of the TypeScript modules that gate the vault:

    - [src/lib/env.ts]               configuration loading ([getEnv]),
    - [src/lib/auth/lockout.ts]      the brute-force lockout record,
    - [src/lib/auth/totp.ts]         the TOTP input guard,
    - [src/lib/auth/session.ts]      the signed session token,
    - [src/app/api/auth/login]       the login route ([POST]),
    - [src/app/api/auth/state]       the status route ([GET]).

    Conventions.  A JavaScript string is the list of its UTF-16 code units.
    A JavaScript number is an unbounded integer ([Z]): attempt counters,
    minutes and millisecond timestamps stay far inside the safe-integer
    range; the one division of the code ([/ 1000] under [Math.ceil]) is
    done in [Q].  Asynchronous functions are run to completion one after
    the other; every effect (table storage, wall clock, the calls made to
    the one-time-password library) is threaded through an explicit
    [World]. *)

From Stdlib Require Import ZArith NArith QArith Qround List Bool Lia String Ascii.
Import ListNotations.

Set Warnings "-register-all".
Local Open Scope Z_scope.

(* ===================================================================== *)
(** ** JavaScript strings *)
(* ===================================================================== *)

Module Js.

(** A string is its sequence of UTF-16 code units. *)
Definition jsstring := list N.

(** Code units of an ASCII literal. *)
Fixpoint lit (s : string) : jsstring :=
  match s with
  | EmptyString => []
  | String c r => N_of_ascii c :: lit r
  end.

Definition unit_eqb (a b : N) : bool := N.eqb a b.

Fixpoint str_eqb (a b : jsstring) : bool :=
  match a, b with
  | [], [] => true
  | x :: a', y :: b' => unit_eqb x y && str_eqb a' b'
  | _, _ => false
  end.

(** ECMAScript [WhiteSpace] and [LineTerminator] code points: what the
    regular-expression class [\s] matches and what [String.prototype.trim]
    removes. *)
Definition isWhiteSpace (c : N) : bool :=
  ((9 <=? c) && (c <=? 13)            (* TAB LF VT FF CR *)
   || (c =? 32)                        (* SPACE *)
   || (c =? 160)                       (* NO-BREAK SPACE *)
   || (c =? 5760)                      (* U+1680 *)
   || ((8192 <=? c) && (c <=? 8202))   (* U+2000 .. U+200A *)
   || (c =? 8232) || (c =? 8233)       (* LINE / PARAGRAPH SEPARATOR *)
   || (c =? 8239) || (c =? 8287)       (* U+202F, U+205F *)
   || (c =? 12288)                     (* U+3000 *)
   || (c =? 65279))%N.                 (* U+FEFF *)

(** The class [\d] without the [i]/[u]/[v] flags: [0-9]. *)
Definition isDigit (c : N) : bool := ((48 <=? c) && (c <=? 57))%N.

(** [s.replace(/\s+/g, "")]: every maximal run of white space is deleted,
    that is, every white-space code unit. *)
Definition stripWhiteSpace (s : jsstring) : jsstring :=
  filter (fun c => negb (isWhiteSpace c)) s.

Fixpoint trimStart (s : jsstring) : jsstring :=
  match s with
  | c :: r => if isWhiteSpace c then trimStart r else s
  | [] => []
  end.

Definition trimEnd (s : jsstring) : jsstring := rev (trimStart (rev s)).

(** [String.prototype.trim]. *)
Definition trim (s : jsstring) : jsstring := trimEnd (trimStart s).

(** [/^\d{6}$/.test(s)]: without the [m] flag [^] and [$] are the two ends
    of the input. *)
Definition isSixDigits (s : jsstring) : bool :=
  (List.length s =? 6)%nat && forallb isDigit s.

(** Values a request body or a token payload can hold. *)
Inductive value : Type :=
| VNull
| VBool (b : bool)
| VNumber (n : Z)
| VString (s : jsstring)
| VArray (items : list value)
| VObject (fields : list (jsstring * value)).

(** Property lookup on a parsed object literal: [JSON.parse] keeps the last
    of several members with one name. *)
Fixpoint getField (key : jsstring) (fields : list (jsstring * value))
  : option value :=
  match fields with
  | [] => None
  | (k, v) :: rest =>
      match getField key rest with
      | Some v' => Some v'
      | None => if str_eqb k key then Some v else None
      end
  end.

(** What a [throw] carries, as far as the code inspects it: whether it is
    an object, and its [statusCode] and [code] members. *)
Inductive thrown : Type :=
| ThrownPrimitive
| ThrownObject (statusCode : option Z) (code : option jsstring).

(** A plain [new Error(...)]. *)
Definition plainError : thrown := ThrownObject None None.

End Js.

Import Js.

(* ===================================================================== *)
(** ** Configuration: [src/lib/env.ts] *)
(* ===================================================================== *)

Module Env.

Record AppEnv : Type := {
  azureStorageConnectionString : jsstring;
  blobContainer : jsstring;
  itemsTable : jsstring;
  authTable : jsstring;
  totpSecretBase32 : jsstring;
  totpIssuer : jsstring;
  totpAccountName : jsstring;
  sessionSecret : jsstring;
  sessionTtlHours : Z;
  authMaxAttempts : Z;
  authLockMinutes : Z;
  maxUploadMb : Z
}.

(** [process.env]: the variables [getEnv] looks at; [None] is [undefined]. *)
Record ProcessEnv : Type := {
  AZURE_STORAGE_CONNECTION_STRING : option jsstring;
  AZURE_BLOB_CONTAINER : option jsstring;
  AZURE_ITEMS_TABLE : option jsstring;
  AZURE_AUTH_TABLE : option jsstring;
  TOTP_SECRET_BASE32 : option jsstring;
  TOTP_ISSUER : option jsstring;
  TOTP_ACCOUNT_NAME : option jsstring;
  SESSION_SECRET : option jsstring;
  SESSION_TTL_HOURS : option jsstring;
  AUTH_MAX_ATTEMPTS : option jsstring;
  AUTH_LOCK_MINUTES : option jsstring;
  MAX_UPLOAD_MB : option jsstring;
  NODE_ENV : option jsstring
}.

(** [!value || value.trim().length === 0] *)
Definition isBlank (value : option jsstring) : bool :=
  match value with
  | None => true
  | Some v => (List.length (trim v) =? 0)%nat
  end.

Definition orElse {E A B} (r : E + A) (k : A -> E + B) : E + B :=
  match r with
  | inl e => inl e
  | inr a => k a
  end.

Section Loading.

(** [Number(text)] of the language: [None] when the result is [NaN] or
    infinite (what [Number.isFinite] rejects). *)
Variable ToNumber : jsstring -> option Z.

Definition required (value : option jsstring) : thrown + jsstring :=
  match value with
  | Some v => if isBlank value then inl plainError else inr v
  | None => inl plainError
  end.

Definition optionalNumber (value : option jsstring)
           (defaultValue minimum : Z) : thrown + Z :=
  match value with
  | Some v =>
      if isBlank value then inr defaultValue
      else match ToNumber v with
           | Some parsed =>
               if parsed <? minimum then inl plainError else inr parsed
           | None => inl plainError
           end
  | None => inr defaultValue
  end.

Definition optionalString (value : option jsstring)
           (defaultValue : jsstring) : jsstring :=
  match value with
  | Some v => if isBlank value then defaultValue else v
  | None => defaultValue
  end.

(** [getEnv]: the members of [nextEnv] are evaluated in source order, the
    first [throw] wins; the cache only saves re-evaluation. *)
Definition getEnv (p : ProcessEnv) : thrown + AppEnv :=
  orElse (required (AZURE_STORAGE_CONNECTION_STRING p)) (fun conn =>
  let container := optionalString (AZURE_BLOB_CONTAINER p) (lit "privy-files") in
  let items := optionalString (AZURE_ITEMS_TABLE p) (lit "PrivyItems") in
  let auth := optionalString (AZURE_AUTH_TABLE p) (lit "PrivyAuth") in
  orElse (required (TOTP_SECRET_BASE32 p)) (fun totp =>
  let issuer := optionalString (TOTP_ISSUER p) (lit "Privy Share") in
  let account := optionalString (TOTP_ACCOUNT_NAME p) (lit "owner") in
  orElse (required (SESSION_SECRET p)) (fun secret =>
  orElse (optionalNumber (SESSION_TTL_HOURS p) 12 1) (fun ttl =>
  orElse (optionalNumber (AUTH_MAX_ATTEMPTS p) 10 1) (fun attempts =>
  orElse (optionalNumber (AUTH_LOCK_MINUTES p) 30 1) (fun minutes =>
  orElse (optionalNumber (MAX_UPLOAD_MB p) 20 1) (fun upload =>
  if (List.length secret <? 32)%nat then inl plainError
  else inr {| azureStorageConnectionString := conn;
              blobContainer := container;
              itemsTable := items;
              authTable := auth;
              totpSecretBase32 := totp;
              totpIssuer := issuer;
              totpAccountName := account;
              sessionSecret := secret;
              sessionTtlHours := ttl;
              authMaxAttempts := attempts;
              authLockMinutes := minutes;
              maxUploadMb := upload |}))))))).

End Loading.

End Env.

Import Env.

(* ===================================================================== *)
(** ** Shared types: [src/lib/types.ts] *)
(* ===================================================================== *)

Module Types.

Record LockoutStatus : Type := {
  isLocked : bool;
  failedAttempts : Z;
  maxAttempts : Z;
  lockUntilEpochMs : Z;
  retryAfterSeconds : Z
}.

End Types.

(* ===================================================================== *)
(** ** The libraries and services the code calls *)
(* ===================================================================== *)

Module Host.

(** Modelled from the spec: the payload of a session token ("logical
    payload: [{authenticated: true}] plus standard issued-at/expiry
    claims").  The token library ([jose]) is not part of the repository;
    [None] is an absent member, times are seconds since the epoch. *)
Record Claims : Type := {
  authenticated : option value;
  iat : option Z;
  exp : option Z
}.

(** Modelled from the spec: a signed token taken apart ("opaque,
    self-contained, signed assertion"): the algorithm named by the
    protected header, the payload, and the signature. *)
Record Jws : Type := {
  alg : jsstring;
  payload : Claims;
  signature : jsstring
}.

(** One row of an Azure table as the table client hands it over: its two
    keys and whichever of the properties are present. *)
Record TableEntity : Type := {
  rowPartitionKey : jsstring;
  rowRowKey : jsstring;
  rowFailedAttempts : option Z;
  rowLockUntilEpochMs : option Z;
  rowUpdatedAt : option Z
}.

(** What lies outside the repository: the language's [Number], the process
    environment, the one-time-password library and the token library. *)
Class Platform : Type := {
  ToNumber : jsstring -> option Z;
  processEnv : ProcessEnv;
  (** [otplib]'s [verifySync] for the [totp] strategy with period 30 and
      epoch tolerance 1, as a function of the secret, the token and the
      time of the call (milliseconds); it may throw, e.g. on a bad secret. *)
  otpVerify : jsstring -> jsstring -> Z -> thrown + bool;
  (** Modelled from the spec: compact serialization of a signed token and
      its inverse ("any parse error ... yields false"). *)
  jwsCompact : Jws -> jsstring;
  jwsParse : jsstring -> option Jws;
  (** Modelled from the spec: the "symmetric MAC-based signature scheme":
      key, header algorithm, payload. *)
  mac : jsstring -> jsstring -> Claims -> jsstring
}.

(** The state the handlers act on.  [clock] lists the successive readings
    of the wall clock (milliseconds since the epoch), [ticks] counts the
    readings made so far.  [tableReads], [tableWrites] and [otpCalls]
    record the calls that reached the auth table and the one-time-password
    library, most recent first. *)
Record World : Type := {
  authRow : option TableEntity;
  storageFault : option thrown;
  clock : nat -> Z;
  ticks : nat;
  tableReads : nat;
  tableWrites : list TableEntity;
  otpCalls : list jsstring
}.

Inductive completion (A : Type) : Type :=
| Return (a : A)
| Throw (e : thrown).

Arguments Return {A} a.
Arguments Throw {A} e.

(** A computation: runs in a world, ends normally or by a [throw]. *)
Definition M (A : Type) : Type := World -> completion A * World.

Definition ret {A} (a : A) : M A := fun w => (Return a, w).

Definition throw {A} (e : thrown) : M A := fun w => (Throw e, w).

Definition bind {A B} (m : M A) (k : A -> M B) : M B :=
  fun w =>
    match m w with
    | (Return a, w') => k a w'
    | (Throw e, w') => (Throw e, w')
    end.

(** [try { m } catch (error) { handler error }] *)
Definition tryCatch {A} (m : M A) (handler : thrown -> M A) : M A :=
  fun w =>
    match m w with
    | (Return a, w') => (Return a, w')
    | (Throw e, w') => handler e w'
    end.

Declare Scope js_scope.
Delimit Scope js_scope with js.
Notation "x <- m ;; k" := (bind m (fun x => k))
  (at level 61, m at next level, right associativity) : js_scope.
Notation "m ;; k" := (bind m (fun _ => k))
  (at level 61, right associativity) : js_scope.
Local Open Scope js_scope.

(** The clock has been read once more. *)
Definition tick (w : World) : World :=
  {| authRow := authRow w; storageFault := storageFault w;
     clock := clock w; ticks := S (ticks w);
     tableReads := tableReads w; tableWrites := tableWrites w;
     otpCalls := otpCalls w |}.

(** A read has reached the auth table. *)
Definition countRead (w : World) : World :=
  {| authRow := authRow w; storageFault := storageFault w;
     clock := clock w; ticks := ticks w;
     tableReads := S (tableReads w); tableWrites := tableWrites w;
     otpCalls := otpCalls w |}.

(** [entity] has replaced the row of the auth table. *)
Definition stored (entity : TableEntity) (w : World) : World :=
  {| authRow := Some entity; storageFault := storageFault w;
     clock := clock w; ticks := ticks w;
     tableReads := tableReads w; tableWrites := entity :: tableWrites w;
     otpCalls := otpCalls w |}.

(** The one-time-password library has been called with [token]. *)
Definition noted (token : jsstring) (w : World) : World :=
  {| authRow := authRow w; storageFault := storageFault w;
     clock := clock w; ticks := ticks w;
     tableReads := tableReads w; tableWrites := tableWrites w;
     otpCalls := token :: otpCalls w |}.

(** [Date.now()] and [new Date()]: the next reading of the clock. *)
Definition Date_now : M Z :=
  fun w => (Return (clock w (ticks w)), tick w).

(** [getEnv()] inside a handler. *)
Definition loadEnv `{Platform} : M AppEnv :=
  fun w =>
    match getEnv ToNumber processEnv with
    | inr env => (Return env, w)
    | inl e => (Throw e, w)
    end.

(** [initializeStorage()] of [src/lib/storage/azure.ts]: builds the
    clients from the configuration and creates the container and the
    tables, taking "already exists" (409) as success.  Any other failure
    of the storage account is [storageFault]. *)
Definition initializeStorage `{Platform} : M unit :=
  _ <- loadEnv ;;
  fun w =>
    match storageFault w with
    | Some e => (Throw e, w)
    | None => (Return tt, w)
    end.

(** [TableClient.getEntity(partitionKey, rowKey)] on the auth table. *)
Definition table_getEntity : M TableEntity :=
  fun w =>
    match storageFault w with
    | Some e => (Throw e, w)
    | None =>
        match authRow w with
        | Some row => (Return row, countRead w)
        | None =>
            (Throw (ThrownObject (Some 404) (Some (lit "ResourceNotFound"))),
             countRead w)
        end
    end.

(** [TableClient.upsertEntity(entity, "Replace")] on the auth table. *)
Definition table_upsertEntity (entity : TableEntity) : M unit :=
  fun w =>
    match storageFault w with
    | Some e => (Throw e, w)
    | None => (Return tt, stored entity w)
    end.

(** A call of [verifySync] with the given secret and token; the library
    reads the clock itself. *)
Definition otp_verifySync `{Platform} (secret token : jsstring) : M bool :=
  fun w =>
    match otpVerify secret token (clock w (ticks w)) with
    | inr valid => (Return valid, noted token (tick w))
    | inl e => (Throw e, noted token (tick w))
    end.

End Host.

Import Host.
Local Open Scope js_scope.

(* ===================================================================== *)
(** ** The lockout record: [src/lib/auth/lockout.ts] *)
(* ===================================================================== *)

Module Lockout.

(** [updatedAt] holds the instant that [toISOString()] prints. *)
Record AuthStateEntity : Type := {
  partitionKey : jsstring;
  rowKey : jsstring;
  failedAttempts : Z;
  lockUntilEpochMs : Z;
  updatedAt : Z
}.

Definition PARTITION_KEY : jsstring := lit "auth".
Definition ROW_KEY : jsstring := lit "global".

(** The entity as the table client receives it. *)
Definition asRow (entity : AuthStateEntity) : TableEntity :=
  {| rowPartitionKey := partitionKey entity;
     rowRowKey := rowKey entity;
     rowFailedAttempts := Some (failedAttempts entity);
     rowLockUntilEpochMs := Some (lockUntilEpochMs entity);
     rowUpdatedAt := Some (updatedAt entity) |}.

Definition isNotFoundError (error : thrown) : bool :=
  match error with
  | ThrownPrimitive => false
  | ThrownObject statusCode code =>
      match statusCode with Some c => c =? 404 | None => false end
      || match code with
         | Some s => str_eqb s (lit "ResourceNotFound")
         | None => false
         end
  end.

Definition defaultEntity : M AuthStateEntity :=
  stamp <- Date_now ;;
  ret {| partitionKey := PARTITION_KEY;
         rowKey := ROW_KEY;
         failedAttempts := 0;
         lockUntilEpochMs := 0;
         updatedAt := stamp |}.

(** [x ?? 0] *)
Definition orZero (x : option Z) : Z :=
  match x with Some n => n | None => 0 end.

(** The clock is read only when [updatedAt] is missing ([??]). *)
Definition normalizeEntity (entity : TableEntity) : M AuthStateEntity :=
  stamp <- match rowUpdatedAt entity with
           | Some u => ret u
           | None => Date_now
           end ;;
  ret {| partitionKey := PARTITION_KEY;
         rowKey := ROW_KEY;
         failedAttempts := orZero (rowFailedAttempts entity);
         lockUntilEpochMs := orZero (rowLockUntilEpochMs entity);
         updatedAt := stamp |}.

Definition getEntity `{Platform} : M AuthStateEntity :=
  initializeStorage ;;
  tryCatch
    (entity <- table_getEntity ;;
     normalizeEntity entity)
    (fun error =>
       if negb (isNotFoundError error) then throw error
       else
         created <- defaultEntity ;;
         table_upsertEntity (asRow created) ;;
         ret created).

Definition saveEntity `{Platform} (entity : AuthStateEntity) : M unit :=
  initializeStorage ;;
  table_upsertEntity (asRow entity).

(** [Math.ceil] *)
Definition Math_ceil (x : Q) : Z := Qceiling x.

(** The body of [toStatus] once [Date.now()] and [getEnv()] have answered. *)
Definition statusAt (entity : AuthStateEntity) (now : Z) (env : AppEnv)
  : Types.LockoutStatus :=
  let retryAfterSeconds :=
    Z.max 0 (Math_ceil
               (Qdiv (inject_Z (lockUntilEpochMs entity - now))
                     (inject_Z 1000))) in
  {| Types.isLocked := 0 <? retryAfterSeconds;
     Types.failedAttempts := failedAttempts entity;
     Types.maxAttempts := authMaxAttempts env;
     Types.lockUntilEpochMs := lockUntilEpochMs entity;
     Types.retryAfterSeconds := retryAfterSeconds |}.

Definition toStatus `{Platform} (entity : AuthStateEntity)
  : M Types.LockoutStatus :=
  now <- Date_now ;;
  env <- loadEnv ;;
  ret (statusAt entity now env).

Definition getLockoutStatus `{Platform} : M Types.LockoutStatus :=
  entity <- getEntity ;;
  toStatus entity.

Definition recordFailedAttempt `{Platform} : M Types.LockoutStatus :=
  env <- loadEnv ;;
  entity <- getEntity ;;
  now <- Date_now ;;
  if now <? lockUntilEpochMs entity then toStatus entity
  else
    let failedAttempts1 := failedAttempts entity + 1 in
    let locks := authMaxAttempts env <=? failedAttempts1 in
    let failedAttempts2 := if locks then 0 else failedAttempts1 in
    let lockUntilEpochMs2 :=
      if locks then now + authLockMinutes env * 60 * 1000 else 0 in
    stamp <- Date_now ;;
    let nextEntity :=
      {| partitionKey := PARTITION_KEY;
         rowKey := ROW_KEY;
         failedAttempts := failedAttempts2;
         lockUntilEpochMs := lockUntilEpochMs2;
         updatedAt := stamp |} in
    saveEntity nextEntity ;;
    toStatus nextEntity.

Definition resetFailedAttempts `{Platform} : M unit :=
  stamp <- Date_now ;;
  let nextEntity :=
    {| partitionKey := PARTITION_KEY;
       rowKey := ROW_KEY;
       failedAttempts := 0;
       lockUntilEpochMs := 0;
       updatedAt := stamp |} in
  saveEntity nextEntity.

End Lockout.

(* ===================================================================== *)
(** ** The one-time-password guard: [src/lib/auth/totp.ts] *)
(* ===================================================================== *)

Module Totp.

Definition verifyTotpCode `{Platform} (code : jsstring) : M bool :=
  let normalized := trim (stripWhiteSpace code) in
  if negb (isSixDigits normalized) then ret false
  else
    env <- loadEnv ;;
    otp_verifySync (totpSecretBase32 env) normalized.

End Totp.

(* ===================================================================== *)
(** ** The token library *)
(* ===================================================================== *)

Module Jose.

(** Modelled from the spec: token times are whole seconds
    ([Math.floor(ms / 1000)]), as the "standard issued-at/expiry claims"
    are. *)
Definition epoch (ms : Z) : Z := ms / 1000.

(** Modelled from the spec: the time span ["<hours>h"] in seconds. *)
Definition secsOfHours (hours : Z) : Z := hours * 3600.

(** Modelled from the spec: [SignJWT ... .sign(key)]: "produces a signed
    token ... signed with a server-held secret key using a symmetric
    MAC-based signature scheme". *)
Definition sign `{Platform} (algorithm : jsstring) (claims : Claims)
           (key : jsstring) : jsstring :=
  jwsCompact {| alg := algorithm;
                payload := claims;
                signature := mac key algorithm claims |}.

(** Modelled from the spec: [jwtVerify(token, key, {algorithms})]: the
    payload when the token parses, names an allowed algorithm, carries the
    signature of its content under [key] and is unexpired; a [throw]
    otherwise ("any parse error, signature mismatch, or expiry").  A token
    is expired once the clock, in whole seconds, has reached [exp]. *)
Definition jwtVerify `{Platform} (token key : jsstring)
           (algorithms : list jsstring) : M Claims :=
  match jwsParse token with
  | None => throw plainError
  | Some jws =>
      if negb (existsb (str_eqb (alg jws)) algorithms) then throw plainError
      else if negb (str_eqb (signature jws)
                            (mac key (alg jws) (payload jws)))
      then throw plainError
      else
        now <- Date_now ;;
        match exp (payload jws) with
        | Some e => if e <=? epoch now then throw plainError
                    else ret (payload jws)
        | None => ret (payload jws)
        end
  end.

End Jose.

(* ===================================================================== *)
(** ** HTTP messages *)
(* ===================================================================== *)

Module Http.

Inductive RequestBody : Type :=
| NotJson
| Json (v : value).

(** A request: the values of its cookies by name, and its body. *)
Record NextRequest : Type := {
  requestCookies : list (jsstring * jsstring);
  requestBody : RequestBody
}.

Inductive SameSite : Type := Lax | Strict | NoneSite.

Record Cookie : Type := {
  name : jsstring;
  cookieValue : jsstring;
  httpOnly : bool;
  secure : bool;
  sameSite : SameSite;
  path : jsstring;
  maxAge : Z
}.

Inductive ResponseBody : Type :=
| ErrorBody (error : jsstring) (lockout : option Types.LockoutStatus)
| SuccessBody
| StateBody (authenticated : bool) (lockout : Types.LockoutStatus).

Record NextResponse : Type := {
  status : Z;
  body : ResponseBody;
  setCookies : list Cookie
}.

(** [NextResponse.json(body, { status })] *)
Definition json (b : ResponseBody) (code : Z) : NextResponse :=
  {| status := code; body := b; setCookies := [] |}.

(** [response.cookies.set(cookie)] *)
Definition cookies_set (response : NextResponse) (c : Cookie) : NextResponse :=
  {| status := status response;
     body := body response;
     setCookies := c :: setCookies response |}.

(** [request.cookies.get(name)?.value] *)
Fixpoint cookies_get (cookieName : jsstring) (cs : list (jsstring * jsstring))
  : option jsstring :=
  match cs with
  | [] => None
  | (n, v) :: rest =>
      if str_eqb n cookieName then Some v else cookies_get cookieName rest
  end.

(** [await request.json()] *)
Definition request_json (request : NextRequest) : thrown + value :=
  match requestBody request with
  | NotJson => inl plainError
  | Json v => inr v
  end.

End Http.

Import Http.

(* ===================================================================== *)
(** ** The session token: [src/lib/auth/session.ts] *)
(* ===================================================================== *)

Module Session.

Definition SESSION_COOKIE : jsstring := lit "privy_session".
Definition SESSION_ALGO : jsstring := lit "HS256".

(** The key is the encoded secret; the encoding is one-to-one. *)
Definition getSecretKey `{Platform} : M jsstring :=
  env <- loadEnv ;;
  ret (sessionSecret env).

Definition createSessionToken `{Platform} : M jsstring :=
  env <- loadEnv ;;
  issued <- Date_now ;;
  started <- Date_now ;;
  let claims :=
    {| authenticated := Some (VBool true);
       iat := Some (Jose.epoch issued);
       exp := Some (Jose.epoch started
                    + Jose.secsOfHours (sessionTtlHours env)) |} in
  key <- getSecretKey ;;
  ret (Jose.sign SESSION_ALGO claims key).

(** [payload.authenticated === true] *)
Definition isTrue (v : option value) : bool :=
  match v with
  | Some (VBool true) => true
  | _ => false
  end.

Definition verifySessionToken `{Platform} (token : jsstring) : M bool :=
  tryCatch
    (key <- getSecretKey ;;
     claims <- Jose.jwtVerify token key [SESSION_ALGO] ;;
     ret (isTrue (authenticated claims)))
    (fun _ => ret false).

(** [process.env.NODE_ENV === "production"] *)
Definition inProduction `{Platform} : bool :=
  match NODE_ENV processEnv with
  | Some v => str_eqb v (lit "production")
  | None => false
  end.

Definition setSessionCookie `{Platform} (response : NextResponse)
  : M NextResponse :=
  token <- createSessionToken ;;
  env <- loadEnv ;;
  ret (cookies_set response
         {| name := SESSION_COOKIE;
            cookieValue := token;
            httpOnly := true;
            secure := inProduction;
            sameSite := Lax;
            path := lit "/";
            maxAge := sessionTtlHours env * 60 * 60 |}).


Definition isAuthenticatedRequest `{Platform} (request : NextRequest)
  : M bool :=
  match cookies_get SESSION_COOKIE (requestCookies request) with
  | None => ret false
  | Some [] => ret false
  | Some token => verifySessionToken token
  end.

End Session.

(* ===================================================================== *)
(** ** The login route: [src/app/api/auth/login/route.ts] *)
(* ===================================================================== *)

Module Login.

(** [z.object({ code: z.string().trim().min(1) }).parse(v)]: the value is
    a plain object whose [code] is a string; the string is trimmed, then
    its length checked; the parsed body holds the trimmed string. *)
Definition bodySchema_parse (v : value) : thrown + jsstring :=
  match v with
  | VObject fields =>
      match getField (lit "code") fields with
      | Some (VString s) =>
          let trimmed := trim s in
          if (1 <=? List.length trimmed)%nat then inr trimmed
          else inl plainError
      | _ => inl plainError
      end
  | _ => inl plainError
  end.

Definition tooMany : jsstring :=
  lit "Too many failed attempts. Try again later.".

Definition POST `{Platform} (request : NextRequest) : M NextResponse :=
  match orElse (request_json request) bodySchema_parse with
  | inl _ =>
      ret (json (ErrorBody (lit "Invalid request payload") None) 400)
  | inr code =>
      currentLockout <- Lockout.getLockoutStatus ;;
      if Types.isLocked currentLockout then
        ret (json (ErrorBody tooMany (Some currentLockout)) 423)
      else
        valid <- Totp.verifyTotpCode code ;;
        if negb valid then
          lockout <- Lockout.recordFailedAttempt ;;
          ret (json
                 (ErrorBody
                    (if Types.isLocked lockout then tooMany
                     else lit "Invalid authenticator code")
                    (Some lockout))
                 (if Types.isLocked lockout then 423 else 401))
        else
          Lockout.resetFailedAttempts ;;
          Session.setSessionCookie (json SuccessBody 200)
  end.

End Login.

(* ===================================================================== *)
(** ** The status route: [src/app/api/auth/state/route.ts] *)
(* ===================================================================== *)

Module State.

(** The two promises are run one after the other: they share nothing but
    the clock. *)
Definition GET `{Platform} (request : NextRequest) : M NextResponse :=
  authenticated <- Session.isAuthenticatedRequest request ;;
  lockout <- Lockout.getLockoutStatus ;;
  ret (json (StateBody authenticated lockout) 200).

End State.

(* ===================================================================== *)
(** ** The storage clients: [src/lib/storage/azure.ts] *)
(* ===================================================================== *)

Module Azure.

(** [s.split(sep)] for a separator of one code unit: the pieces between
    the separators, one more than there are separators. *)
Fixpoint split (sep : N) (s : jsstring) : list jsstring :=
  match s with
  | [] => [[]]
  | c :: r =>
      if unit_eqb c sep then [] :: split sep r
      else match split sep r with
           | piece :: more => (c :: piece) :: more
           | [] => [[c]]
           end
  end.

(** [parts.join(sep)] *)
Fixpoint join (sep : N) (parts : list jsstring) : jsstring :=
  match parts with
  | [] => []
  | [piece] => piece
  | piece :: more => piece ++ sep :: join sep more
  end.

Definition semicolon : N := 59.
Definition equals : N := 61.

(** The loop of [getConnectionPart] over the pairs. *)
Fixpoint firstPart (pairs : list jsstring) (key : jsstring)
  : option jsstring :=
  match pairs with
  | [] => None
  | entry :: others =>
      match split equals entry with
      | k :: rest =>
          if str_eqb k key then Some (join equals rest)
          else firstPart others key
      | [] => firstPart others key
      end
  end.

Definition getConnectionPart (connectionString key : jsstring)
  : option jsstring :=
  firstPart (split semicolon connectionString) key.




End Azure.

(* ===================================================================== *)
(** ** Item helpers: [src/lib/storage/items.ts] *)
(* ===================================================================== *)

Module Items.

(** The class [[a-zA-Z0-9._-]]. *)
Definition isFileNameUnit (c : N) : bool :=
  (((97 <=? c) && (c <=? 122))       (* a-z *)
   || ((65 <=? c) && (c <=? 90))     (* A-Z *)
   || ((48 <=? c) && (c <=? 57))     (* 0-9 *)
   || (c =? 46) || (c =? 95) || (c =? 45))%N.   (* . _ - *)

Definition hyphen : N := 45.

(** [name.replace(/[^a-zA-Z0-9._-]/g, "-")]: without the [u] flag the
    expression matches code unit by code unit. *)
Definition sanitizeFileName (name : jsstring) : jsstring :=
  map (fun c => if isFileNameUnit c then c else hyphen) name.

(** [None] is [undefined]. *)
Definition toStoredTitle (title : option jsstring) : option jsstring :=
  match title with
  | None => None
  | Some [] => None
  | Some t =>
      let trimmed := trim t in
      if (List.length trimmed =? 0)%nat then None else Some trimmed
  end.

End Items.

(* ===================================================================== *)
(** ** The item route: [src/app/api/items/[id]/route.ts] *)
(* ===================================================================== *)

Module ItemRoute.

Section Handler.

Context `{Platform}.

(** [deleteItemById] of [src/lib/storage/items.ts]; it works on the item
    table and the blob container through the Azure SDK. *)
Variable deleteItemById : jsstring -> M unit.

(** [id] is the route parameter, [(await context.params).id]. *)
Definition DELETE (request : NextRequest) (id : jsstring) : M NextResponse :=
  authenticated <- Session.isAuthenticatedRequest request ;;
  if negb authenticated then
    ret (json (ErrorBody (lit "Unauthorized") None) 401)
  else
    match id with
    | [] => ret (json (ErrorBody (lit "Missing id") None) 400)
    | _ =>
        deleteItemById id ;;
        ret (json SuccessBody 200)
    end.

End Handler.

End ItemRoute.

(* ===================================================================== *)
(** ** Vocabulary of the specification *)
(* ===================================================================== *)

Module Spec.

(** The lockout record as a read of the store yields it:
    [(failedAttempts, lockUntil)]; no record is the zero state. *)
Definition counters (row : option TableEntity) : Z * Z :=
  match row with
  | Some r => (Lockout.orZero (rowFailedAttempts r),
               Lockout.orZero (rowLockUntilEpochMs r))
  | None => (0, 0)
  end.

(** How often [getEntity] reads the clock: once to stamp a record it
    creates, or one it finds without [updatedAt]. *)
Definition entityClockReads (row : option TableEntity) : nat :=
  match row with
  | Some r => match rowUpdatedAt r with Some _ => 0 | None => 1 end
  | None => 1
  end.

(** The instant [now] that [toStatus] (called from [getLockoutStatus]) and
    [recordFailedAttempt] obtain from [Date.now()] right after they have
    read the record, when started in [w]. *)
Definition nowAfterRead (w : World) : Z :=
  clock w (ticks w + entityClockReads (authRow w))%nat.

(** The zero state: what [defaultEntity] and [resetFailedAttempts] build
    when the clock reads [stamp]. *)
Definition zeroEntity (stamp : Z) : Lockout.AuthStateEntity :=
  {| Lockout.partitionKey := Lockout.PARTITION_KEY;
     Lockout.rowKey := Lockout.ROW_KEY;
     Lockout.failedAttempts := 0;
     Lockout.lockUntilEpochMs := 0;
     Lockout.updatedAt := stamp |}.

(** The clock has been read [k] more times. *)
Definition later (k : nat) (w : World) : World := Nat.iter k tick w.

(** What [getEntity] returns in a healthy world: the stored counters, or
    the zero state. *)
Definition readEntity (w : World) : Lockout.AuthStateEntity :=
  {| Lockout.partitionKey := Lockout.PARTITION_KEY;
     Lockout.rowKey := Lockout.ROW_KEY;
     Lockout.failedAttempts := fst (counters (authRow w));
     Lockout.lockUntilEpochMs := snd (counters (authRow w));
     Lockout.updatedAt :=
       match authRow w with
       | Some r => match rowUpdatedAt r with
                   | Some u => u
                   | None => clock w (ticks w)
                   end
       | None => clock w (ticks w)
       end |}.

(** The world [getEntity] leaves behind: a missing record has been
    created. *)
Definition afterRead (w : World) : World :=
  match authRow w with
  | Some r => match rowUpdatedAt r with
              | Some _ => countRead w
              | None => tick (countRead w)
              end
  | None => stored (Lockout.asRow (readEntity w)) (tick (countRead w))
  end.

(** The record [recordFailedAttempt] writes for the record it has read, at
    its reading [now] of the clock, stamped [stamp]. *)
Definition attemptEntity (env : AppEnv) (entity : Lockout.AuthStateEntity)
           (now stamp : Z) : Lockout.AuthStateEntity :=
  let locks := authMaxAttempts env <=? Lockout.failedAttempts entity + 1 in
  {| Lockout.partitionKey := Lockout.PARTITION_KEY;
     Lockout.rowKey := Lockout.ROW_KEY;
     Lockout.failedAttempts :=
       if locks then 0 else Lockout.failedAttempts entity + 1;
     Lockout.lockUntilEpochMs :=
       if locks then now + authLockMinutes env * 60 * 1000 else 0;
     Lockout.updatedAt := stamp |}.

(** The instant at which the one-time-password library is called by a
    login started in [w]: the reading after the status check's. *)
Definition nowAtVerify (w : World) : Z :=
  clock w (S (ticks w + entityClockReads (authRow w))).

(** The submitted code is invalid at time [t]: it is not six digits, or
    the library turns it down. *)
Definition invalidCode `{Platform} (env : AppEnv) (code : jsstring) (t : Z)
  : Prop :=
  isSixDigits (stripWhiteSpace code) = false \/
  otpVerify (totpSecretBase32 env) (stripWhiteSpace code) t = inr false.

(** Time does not run backwards. *)
Definition monotone (w : World) : Prop :=
  forall i j, (i <= j)%nat -> clock w i <= clock w j.

(** A clock that stands still at [t], as under a test's fake timers. *)
Definition frozen (t : Z) (w : World) : Prop := forall i, clock w i = t.

(** [ceil(a / b)] on integers, for [b > 0]. *)
Definition ceilDiv (a b : Z) : Z := - ((- a) / b).

(** The spec's [computeStatus(record, now, maxAttempts)]:
    [retryAfterSeconds = max(0, ceil((lockUntil - now)/1000))],
    [isLocked = retryAfterSeconds > 0]. *)
Definition computeStatus (failedAttempts lockUntil now maxAttempts : Z)
  : Types.LockoutStatus :=
  let retry := Z.max 0 (ceilDiv (lockUntil - now) 1000) in
  {| Types.isLocked := 0 <? retry;
     Types.failedAttempts := failedAttempts;
     Types.maxAttempts := maxAttempts;
     Types.lockUntilEpochMs := lockUntil;
     Types.retryAfterSeconds := retry |}.

(** "Exactly 6 ASCII digits". *)
Definition sixAsciiDigits (s : jsstring) : Prop :=
  List.length s = 6%nat /\ Forall (fun c => (48 <= c <= 57)%N) s.

(** A malformed login payload. *)
Inductive malformed : NextRequest -> Prop :=
| NoJson request :
    requestBody request = NotJson -> malformed request
| NoObject request v :
    requestBody request = Json v ->
    (forall fields, v <> VObject fields) -> malformed request
| MissingCode request fields :
    requestBody request = Json (VObject fields) ->
    getField (lit "code") fields = None -> malformed request
| NonStringCode request fields v :
    requestBody request = Json (VObject fields) ->
    getField (lit "code") fields = Some v ->
    (forall s, v <> VString s) -> malformed request
| EmptyCode request fields s :
    requestBody request = Json (VObject fields) ->
    getField (lit "code") fields = Some (VString s) ->
    trim s = [] -> malformed request.

(** The session token that [createSessionToken] signs when the clock
    reads [issued] for [iat] and [started] for [exp]. *)
Definition sessionJws `{Platform} (env : AppEnv) (issued started : Z) : Jws :=
  let claims :=
    {| authenticated := Some (VBool true);
       iat := Some (Jose.epoch issued);
       exp := Some (Jose.epoch started
                    + Jose.secsOfHours (sessionTtlHours env)) |} in
  {| alg := Session.SESSION_ALGO;
     payload := claims;
     signature := mac (sessionSecret env) Session.SESSION_ALGO claims |}.

(** "Unexpired" for a payload at a clock reading in milliseconds. *)
Definition unexpired (claims : Claims) (nowMs : Z) : Prop :=
  match exp claims with
  | Some e => Jose.epoch nowMs < e
  | None => True
  end.

(** The status queries of a client, one after the other; a failed one
    ends the run. *)
Fixpoint statusQueries `{Platform} (requests : list NextRequest)
  : M (list NextResponse) :=
  match requests with
  | [] => ret []
  | r :: rest =>
      response <- State.GET r ;;
      others <- statusQueries rest ;;
      ret (response :: others)
  end.

(** The lockout part of a status response. *)
Definition lockoutOf (response : NextResponse) : option Types.LockoutStatus :=
  match body response with
  | StateBody _ l => Some l
  | _ => None
  end.

(** Invariant of a written record, for the configured ceiling. *)
Definition wellFormed (maxAttempts : Z) (row : TableEntity) : Prop :=
  exists n l,
    rowFailedAttempts row = Some n /\ rowLockUntilEpochMs row = Some l /\
    n < maxAttempts /\ (l <> 0 -> n = 0).

(** Everything that can write to the store. *)
Inductive call : Type :=
| CallGetLockoutStatus
| CallRecordFailedAttempt
| CallResetFailedAttempts
| CallLogin (request : NextRequest)
| CallState (request : NextRequest).

Definition exec `{Platform} (c : call) (w : World) : World :=
  match c with
  | CallGetLockoutStatus => snd (Lockout.getLockoutStatus w)
  | CallRecordFailedAttempt => snd (Lockout.recordFailedAttempt w)
  | CallResetFailedAttempts => snd (Lockout.resetFailedAttempts w)
  | CallLogin request => snd (Login.POST request w)
  | CallState request => snd (State.GET request w)
  end.

Definition execAll `{Platform} (calls : list call) (w : World) : World :=
  fold_left (fun acc c => exec c acc) calls w.

(** A computation keeps a property of the world. *)
Definition keeps {A} (I : World -> Prop) (m : M A) : Prop :=
  forall w, I w -> I (snd (m w)).

(** The writes made since the log read [base] are well formed, and the
    stored record is the one found at the start, [initial], or well
    formed. *)
Definition sound (maxAttempts : Z) (base : list TableEntity)
           (initial : option TableEntity) (w : World) : Prop :=
  (forall row, In row (tableWrites w) ->
               In row base \/ wellFormed maxAttempts row) /\
  (forall row, authRow w = Some row ->
               initial = Some row \/ wellFormed maxAttempts row).

End Spec.

(* ===================================================================== *)
(** ** A concrete platform for examples *)
(* ===================================================================== *)

Module Fixture.

(** Decimal numerals only; enough for the settings below. *)
Fixpoint decimalFrom (acc : Z) (s : jsstring) : option Z :=
  match s with
  | [] => Some acc
  | c :: r =>
      if isDigit c then decimalFrom (10 * acc + (Z.of_N c - 48)) r
      else None
  end.

Definition decimal (s : jsstring) : option Z :=
  match s with
  | [] => None
  | _ => decimalFrom 0 s
  end.

Definition variables (maxAttempts : option jsstring) : ProcessEnv :=
  {| AZURE_STORAGE_CONNECTION_STRING :=
       Some (lit "AccountName=vault;AccountKey=a2V5");
     AZURE_BLOB_CONTAINER := None;
     AZURE_ITEMS_TABLE := None;
     AZURE_AUTH_TABLE := None;
     TOTP_SECRET_BASE32 := Some (lit "JBSWY3DPEHPK3PXPJBSWY3DPEHPK3PXP");
     TOTP_ISSUER := None;
     TOTP_ACCOUNT_NAME := None;
     SESSION_SECRET := Some (lit "0123456789abcdef0123456789abcdef");
     SESSION_TTL_HOURS := None;
     AUTH_MAX_ATTEMPTS := maxAttempts;
     AUTH_LOCK_MINUTES := None;
     MAX_UPLOAD_MB := None;
     NODE_ENV := None |}.

(** A toy token format for tokens of this server: a flag for
    [authenticated: true], the two times, then the signature. *)
Definition compact (jws : Jws) : jsstring :=
  (if Session.isTrue (authenticated (payload jws)) then 1%N else 0%N)
    :: Z.to_N (Lockout.orZero (iat (payload jws)))
    :: Z.to_N (Lockout.orZero (exp (payload jws)))
    :: signature jws.

Definition parse (token : jsstring) : option Jws :=
  match token with
  | flag :: issued :: expires :: sig =>
      Some {| alg := Session.SESSION_ALGO;
              payload :=
                {| authenticated :=
                     if (flag =? 1)%N then Some (VBool true) else None;
                   iat := Some (Z.of_N issued);
                   exp := Some (Z.of_N expires) |};
              signature := sig |}
  | _ => None
  end.

(** A toy MAC: the key followed by the expiry. *)
Definition tag (key algorithm : jsstring) (claims : Claims) : jsstring :=
  key ++ [Z.to_N (Lockout.orZero (exp claims))].

(** The only code the toy authenticator accepts is 123456. *)
Definition accepts (secret token : jsstring) (t : Z) : thrown + bool :=
  inr (str_eqb token (lit "123456")).

Definition platformWith (maxAttempts : option jsstring) : Platform :=
  {| ToNumber := decimal;
     processEnv := variables maxAttempts;
     otpVerify := accepts;
     jwsCompact := compact;
     jwsParse := parse;
     mac := tag |}.

(** The defaults: 10 attempts, 30 minutes, 12 hours. *)
Definition platform : Platform := platformWith None.

Definition env : AppEnv :=
  {| azureStorageConnectionString := lit "AccountName=vault;AccountKey=a2V5";
     blobContainer := lit "privy-files";
     itemsTable := lit "PrivyItems";
     authTable := lit "PrivyAuth";
     totpSecretBase32 := lit "JBSWY3DPEHPK3PXPJBSWY3DPEHPK3PXP";
     totpIssuer := lit "Privy Share";
     totpAccountName := lit "owner";
     sessionSecret := lit "0123456789abcdef0123456789abcdef";
     sessionTtlHours := 12;
     authMaxAttempts := 10;
     authLockMinutes := 30;
     maxUploadMb := 20 |}.

(** A stored record. *)
Definition record (failed lockUntil : Z) : TableEntity :=
  {| rowPartitionKey := Lockout.PARTITION_KEY;
     rowRowKey := Lockout.ROW_KEY;
     rowFailedAttempts := Some failed;
     rowLockUntilEpochMs := Some lockUntil;
     rowUpdatedAt := Some 0 |}.

(** A healthy store holding [row], the clock standing at [t]. *)
Definition world (row : option TableEntity) (t : Z) : World :=
  {| authRow := row;
     storageFault := None;
     clock := fun _ => t;
     ticks := 0;
     tableReads := 0;
     tableWrites := [];
     otpCalls := [] |}.

Definition login (code : jsstring) : NextRequest :=
  {| requestCookies := [];
     requestBody := Json (VObject [(lit "code", VString code)]) |}.

End Fixture.

(* ===================================================================== *)
(** ** Scenarios *)
(* ===================================================================== *)

Module Scenario.

(** A string with no white space at either end. *)
Definition clean (s : jsstring) : Prop :=
  (forall c, hd_error s = Some c -> isWhiteSpace c = false) /\
  (forall c, hd_error (rev s) = Some c -> isWhiteSpace c = false).

(** Nothing but white space. *)
Definition blank (s : jsstring) : Prop := Forall (fun c => isWhiteSpace c = true) s.

(** A numeric setting that [getEnv] takes: unset or blank, or a number
    that is at least [minimum]. *)
Definition numericSetting (toNumber : jsstring -> option Z)
           (value : option jsstring) (minimum : Z) : Prop :=
  isBlank value = true \/
  exists text n, value = Some text /\ toNumber text = Some n /\ minimum <= n.

(** The login requests of a client, one after the other; a failed one
    ends the run. *)
Fixpoint logins `{Platform} (requests : list NextRequest)
  : M (list NextResponse) :=
  match requests with
  | [] => ret []
  | r :: rest =>
      response <- Login.POST r ;;
      others <- logins rest ;;
      ret (response :: others)
  end.

(** A connection string written out from its settings:
    [key=value;key=value]. *)
Definition connectionString (settings : list (jsstring * jsstring))
  : jsstring :=
  Azure.join Azure.semicolon
             (map (fun kv => fst kv ++ Azure.equals :: snd kv) settings).

(** The value of the first setting named [key]. *)
Fixpoint setting (key : jsstring) (settings : list (jsstring * jsstring))
  : option jsstring :=
  match settings with
  | [] => None
  | (k, v) :: rest => if str_eqb k key then Some v else setting key rest
  end.

(** The cookie [setSessionCookie] sets for [token]. *)
Definition sessionCookie `{Platform} (env : AppEnv) (token : jsstring)
  : Cookie :=
  {| name := Session.SESSION_COOKIE;
     cookieValue := token;
     httpOnly := true;
     secure := Session.inProduction;
     sameSite := Lax;
     path := lit "/";
     maxAge := sessionTtlHours env * 60 * 60 |}.

(** The world a login with a valid code leaves behind: the record read,
    the library asked, the record reset, the token issued. *)
Definition afterLogin (code : jsstring) (w : World) : World :=
  let w1 := tick (Spec.afterRead w) in
  let w2 := noted (stripWhiteSpace code) (tick w1) in
  let w3 := stored (Lockout.asRow (Spec.zeroEntity (clock w2 (ticks w2))))
                   (tick w2) in
  tick (tick w3).

(** A request that carries the cookies a response has set. *)
Definition carrying (response : NextResponse) : NextRequest :=
  {| requestCookies :=
       map (fun c => (name c, cookieValue c)) (setCookies response);
     requestBody := NotJson |}.

End Scenario.


(* ===================================================================== *)
(** ** Strings and configuration *)
(* ===================================================================== *)

Lemma str_eqb_eq a : forall b, str_eqb a b = true <-> a = b.
Proof.
  induction a as [|x a IH]; intros [|y b]; simpl; split; intro H;
    try reflexivity; try discriminate.
  - apply andb_true_iff in H. destruct H as [Hx Hr].
    apply N.eqb_eq in Hx. apply IH in Hr. congruence.
  - injection H as -> ->. apply andb_true_iff. split.
    + apply N.eqb_refl.
    + apply IH. reflexivity.
Qed.

Lemma trimStart_stripped s : trimStart (stripWhiteSpace s) = stripWhiteSpace s.
Proof.
  induction s as [|c r IH]; simpl; [reflexivity|].
  destruct (isWhiteSpace c) eqn:E; simpl; [exact IH|].
  rewrite E. reflexivity.
Qed.

Lemma stripWhiteSpace_rev s : stripWhiteSpace (rev s) = rev (stripWhiteSpace s).
Proof.
  unfold stripWhiteSpace. induction s as [|c r IH]; simpl; [reflexivity|].
  rewrite filter_app, IH. simpl.
  destruct (isWhiteSpace c); simpl; [apply app_nil_r | reflexivity].
Qed.

(** After [replace(/\s+/g, "")] there is nothing left for [trim] to cut. *)
Lemma trim_stripped s : trim (stripWhiteSpace s) = stripWhiteSpace s.
Proof.
  unfold trim, trimEnd. rewrite trimStart_stripped.
  rewrite <- stripWhiteSpace_rev, trimStart_stripped, stripWhiteSpace_rev.
  apply rev_involutive.
Qed.

(** The regular-expression test decides "exactly 6 ASCII digits". *)
Lemma isSixDigits_spec s : isSixDigits s = true <-> Spec.sixAsciiDigits s.
Proof.
  unfold isSixDigits, Spec.sixAsciiDigits.
  rewrite andb_true_iff, Nat.eqb_eq, forallb_forall, Forall_forall.
  split; intros [Hl Hd]; split; try exact Hl; intros c Hc;
    specialize (Hd c Hc); unfold isDigit in *.
  - apply andb_true_iff in Hd. destruct Hd as [H1 H2].
    apply N.leb_le in H1, H2. lia.
  - apply andb_true_iff. split; apply N.leb_le; lia.
Qed.

Lemma optionalNumber_minimum toNumber value d m n :
  m <= d -> optionalNumber toNumber value d m = inr n -> m <= n.
Proof.
  intros Hd. unfold optionalNumber.
  destruct value as [v|]; [|intros [= <-]; exact Hd].
  destruct (isBlank (Some v)); [intros [= <-]; exact Hd|].
  destruct (toNumber v) as [parsed|]; [|discriminate].
  destruct (Z.ltb_spec parsed m); [discriminate|].
  intros [= <-]. assumption.
Qed.

(** A configuration that loads has every numeric setting at least 1. *)
Lemma getEnv_minimums toNumber p env :
  getEnv toNumber p = inr env ->
  1 <= sessionTtlHours env /\ 1 <= authMaxAttempts env /\
  1 <= authLockMinutes env.
Proof.
  unfold getEnv, orElse.
  destruct (required (AZURE_STORAGE_CONNECTION_STRING p)); [discriminate|].
  destruct (required (TOTP_SECRET_BASE32 p)); [discriminate|].
  destruct (required (SESSION_SECRET p)) as [|secret]; [discriminate|].
  destruct (optionalNumber toNumber (SESSION_TTL_HOURS p) 12 1) as [|ttl] eqn:Ht;
    [discriminate|].
  destruct (optionalNumber toNumber (AUTH_MAX_ATTEMPTS p) 10 1) as [|att] eqn:Ha;
    [discriminate|].
  destruct (optionalNumber toNumber (AUTH_LOCK_MINUTES p) 30 1) as [|mins] eqn:Hm;
    [discriminate|].
  destruct (optionalNumber toNumber (MAX_UPLOAD_MB p) 20 1); [discriminate|].
  destruct (List.length secret <? 32)%nat; [discriminate|].
  intros [= <-]. simpl.
  apply optionalNumber_minimum in Ht; [|lia].
  apply optionalNumber_minimum in Ha; [|lia].
  apply optionalNumber_minimum in Hm; [|lia].
  auto.
Qed.

Lemma fixture_env :
  getEnv (@ToNumber Fixture.platform) (@processEnv Fixture.platform)
  = inr Fixture.env.
Proof. reflexivity. Qed.

(* ===================================================================== *)
(** ** Running the handlers *)
(* ===================================================================== *)

Lemma bind_ok {A B} (m : M A) (k : A -> M B) w a w1 :
  m w = (Return a, w1) -> bind m k w = k a w1.
Proof. intros E. unfold bind. rewrite E. reflexivity. Qed.

Lemma bind_throw {A B} (m : M A) (k : A -> M B) w e w1 :
  m w = (Throw e, w1) -> bind m k w = (Throw e, w1).
Proof. intros E. unfold bind. rewrite E. reflexivity. Qed.

Create HintDb run discriminated.

#[local] Hint Extern 1 (storageFault _ = None) => simpl; assumption : run.

Ltac step := erewrite bind_ok by (eauto with run).

Section Runs.

Context {P : Platform}.
Variable env : AppEnv.
Hypothesis Henv : getEnv ToNumber processEnv = inr env.

Lemma loadEnv_run w : loadEnv w = (Return env, w).
Proof. unfold loadEnv. rewrite Henv. reflexivity. Qed.

Hint Resolve loadEnv_run : run.

Lemma Date_now_run w : Date_now w = (Return (clock w (ticks w)), tick w).
Proof. reflexivity. Qed.

Hint Resolve Date_now_run : run.

Lemma initializeStorage_run w :
  storageFault w = None -> initializeStorage w = (Return tt, w).
Proof.
  intros Hf. unfold initializeStorage. step. rewrite Hf. reflexivity.
Qed.

Hint Resolve initializeStorage_run : run.

Lemma table_upsertEntity_run row w :
  storageFault w = None -> table_upsertEntity row w = (Return tt, stored row w).
Proof. intros Hf. unfold table_upsertEntity. rewrite Hf. reflexivity. Qed.

Hint Resolve table_upsertEntity_run : run.

Lemma getEntity_run w :
  storageFault w = None ->
  Lockout.getEntity w = (Return (Spec.readEntity w), Spec.afterRead w).
Proof.
  intros Hf. unfold Lockout.getEntity. step.
  unfold tryCatch, bind, table_getEntity, Spec.afterRead, Spec.readEntity.
  rewrite Hf. destruct (authRow w) as [row|]; simpl.
  - unfold Lockout.normalizeEntity, bind.
    destruct (rowUpdatedAt row); reflexivity.
  - rewrite table_upsertEntity_run by exact Hf. reflexivity.
Qed.

Hint Resolve getEntity_run : run.

Lemma saveEntity_run entity w :
  storageFault w = None ->
  Lockout.saveEntity entity w = (Return tt, stored (Lockout.asRow entity) w).
Proof.
  intros Hf. unfold Lockout.saveEntity. step.
  apply table_upsertEntity_run. exact Hf.
Qed.

Hint Resolve saveEntity_run : run.

Lemma toStatus_run entity w :
  Lockout.toStatus entity w
  = (Return (Lockout.statusAt entity (clock w (ticks w)) env), tick w).
Proof. unfold Lockout.toStatus. do 2 step. reflexivity. Qed.

Hint Resolve toStatus_run : run.

Lemma storageFault_afterRead w : storageFault (Spec.afterRead w) = storageFault w.
Proof.
  unfold Spec.afterRead. destruct (authRow w) as [r|]; [|reflexivity].
  destruct (rowUpdatedAt r); reflexivity.
Qed.

Lemma clock_afterRead w : clock (Spec.afterRead w) = clock w.
Proof.
  unfold Spec.afterRead. destruct (authRow w) as [r|]; [|reflexivity].
  destruct (rowUpdatedAt r); reflexivity.
Qed.

Lemma ticks_afterRead w :
  ticks (Spec.afterRead w)
  = (ticks w + Spec.entityClockReads (authRow w))%nat.
Proof.
  unfold Spec.afterRead, Spec.entityClockReads.
  destruct (authRow w) as [r|]; [destruct (rowUpdatedAt r)|]; simpl; lia.
Qed.

Lemma now_afterRead w :
  clock (Spec.afterRead w) (ticks (Spec.afterRead w)) = Spec.nowAfterRead w.
Proof. rewrite clock_afterRead, ticks_afterRead. reflexivity. Qed.

Lemma getLockoutStatus_run w :
  storageFault w = None ->
  Lockout.getLockoutStatus w
  = (Return (Lockout.statusAt (Spec.readEntity w) (Spec.nowAfterRead w) env),
     tick (Spec.afterRead w)).
Proof.
  intros Hf. unfold Lockout.getLockoutStatus. step.
  rewrite toStatus_run, now_afterRead. reflexivity.
Qed.

Hint Resolve getLockoutStatus_run : run.

(** [recordFailedAttempt] when the record it reads is locked at its
    reading of the clock: nothing is written. *)
Lemma recordFailedAttempt_locked_run w :
  storageFault w = None ->
  Spec.nowAfterRead w < snd (Spec.counters (authRow w)) ->
  let w1 := tick (Spec.afterRead w) in
  Lockout.recordFailedAttempt w
  = (Return (Lockout.statusAt (Spec.readEntity w) (clock w1 (ticks w1)) env),
     tick w1).
Proof.
  intros Hf Hlock w1. unfold Lockout.recordFailedAttempt. do 3 step.
  rewrite now_afterRead. cbn [Lockout.lockUntilEpochMs Spec.readEntity].
  destruct (Z.ltb_spec (Spec.nowAfterRead w) (snd (Spec.counters (authRow w))));
    [|lia].
  apply toStatus_run.
Qed.

(** [recordFailedAttempt] otherwise: the next record is written and
    reported. *)
Lemma recordFailedAttempt_open_run w :
  storageFault w = None ->
  snd (Spec.counters (authRow w)) <= Spec.nowAfterRead w ->
  let w1 := tick (Spec.afterRead w) in
  let next := Spec.attemptEntity env (Spec.readEntity w)
                                 (Spec.nowAfterRead w) (clock w1 (ticks w1)) in
  let w2 := stored (Lockout.asRow next) (tick w1) in
  Lockout.recordFailedAttempt w
  = (Return (Lockout.statusAt next (clock w2 (ticks w2)) env), tick w2).
Proof.
  intros Hf Hopen w1 next w2. unfold Lockout.recordFailedAttempt. do 3 step.
  rewrite now_afterRead. cbn [Lockout.lockUntilEpochMs Spec.readEntity].
  destruct (Z.ltb_spec (Spec.nowAfterRead w) (snd (Spec.counters (authRow w))));
    [lia|].
  step. erewrite bind_ok.
  - apply toStatus_run.
  - apply saveEntity_run. simpl. rewrite storageFault_afterRead. exact Hf.
Qed.

Lemma resetFailedAttempts_run w :
  storageFault w = None ->
  Lockout.resetFailedAttempts w
  = (Return tt,
     stored (Lockout.asRow (Spec.zeroEntity (clock w (ticks w)))) (tick w)).
Proof.
  intros Hf. unfold Lockout.resetFailedAttempts. step.
  apply saveEntity_run. exact Hf.
Qed.

(** The stored counters are what [getEntity] hands back, and reading does
    not change them. *)
Lemma counters_afterRead w :
  Spec.counters (authRow (Spec.afterRead w)) = Spec.counters (authRow w).
Proof.
  unfold Spec.afterRead. destruct (authRow w) as [r|] eqn:Hr.
  - destruct (rowUpdatedAt r); simpl; rewrite Hr; reflexivity.
  - simpl. rewrite Hr. reflexivity.
Qed.

Lemma otpCalls_afterRead w : otpCalls (Spec.afterRead w) = otpCalls w.
Proof.
  unfold Spec.afterRead. destruct (authRow w) as [r|]; [|reflexivity].
  destruct (rowUpdatedAt r); reflexivity.
Qed.

Lemma tableReads_afterRead w :
  tableReads (Spec.afterRead w) = S (tableReads w).
Proof.
  unfold Spec.afterRead. destruct (authRow w) as [r|]; [|reflexivity].
  destruct (rowUpdatedAt r); reflexivity.
Qed.

(** A record that is present is left as it is by a read. *)
Lemma afterRead_present w row :
  authRow w = Some row ->
  authRow (Spec.afterRead w) = Some row /\
  tableWrites (Spec.afterRead w) = tableWrites w.
Proof.
  intros Hr. unfold Spec.afterRead. rewrite Hr.
  destruct (rowUpdatedAt row); simpl; auto.
Qed.

End Runs.


(* ===================================================================== *)
(** ** The lockout status *)
(* ===================================================================== *)

(** [Math.ceil(a / 1000)] on the rationals is the integer ceiling. *)
Lemma Math_ceil_div a :
  Lockout.Math_ceil (Qdiv (inject_Z a) (inject_Z 1000)) = Spec.ceilDiv a 1000.
Proof.
  unfold Lockout.Math_ceil, Qceiling, Qfloor, Spec.ceilDiv.
  unfold Qdiv, Qmult, Qinv, Qopp, inject_Z. simpl.
  rewrite Z.mul_1_r. reflexivity.
Qed.

(** [ceilDiv a 1000] is the least integer [c] with [a <= 1000 * c]. *)
Lemma ceilDiv_bounds a :
  1000 * (Spec.ceilDiv a 1000 - 1) < a <= 1000 * Spec.ceilDiv a 1000.
Proof.
  unfold Spec.ceilDiv.
  pose proof (Z.div_mod (- a) 1000 ltac:(lia)) as Hdm.
  pose proof (Z.mod_pos_bound (- a) 1000 ltac:(lia)) as Hb.
  lia.
Qed.

Lemma ceilDiv_pos a : 0 < Spec.ceilDiv a 1000 <-> 0 < a.
Proof. pose proof (ceilDiv_bounds a). lia. Qed.

Lemma statusAt_computeStatus entity now env :
  Lockout.statusAt entity now env
  = Spec.computeStatus (Lockout.failedAttempts entity)
                       (Lockout.lockUntilEpochMs entity) now
                       (authMaxAttempts env).
Proof.
  unfold Lockout.statusAt, Spec.computeStatus. rewrite Math_ceil_div.
  reflexivity.
Qed.

(** Locked means: the lock lies strictly ahead of [now]. *)
Lemma isLocked_computeStatus n l now m :
  Types.isLocked (Spec.computeStatus n l now m) = (now <? l).
Proof.
  unfold Spec.computeStatus. simpl.
  pose proof (ceilDiv_pos (l - now)) as Hp.
  destruct (Z.ltb_spec now l), (Z.ltb_spec 0 (Z.max 0 (Spec.ceilDiv (l - now) 1000)));
    try reflexivity; lia.
Qed.

Lemma retry_computeStatus_pos n l now m :
  now < l -> 0 < Types.retryAfterSeconds (Spec.computeStatus n l now m).
Proof.
  intros H. unfold Spec.computeStatus. simpl.
  pose proof (ceilDiv_pos (l - now)). lia.
Qed.

(** C7.  [toStatus] computes the spec's [computeStatus] of the record, of
    the clock reading [now] and of the configured ceiling, and only reads
    the clock: [retryAfterSeconds] is [max(0, ceil((lockUntil - now) /
    1000))] (the ceiling being the least integer not below the quotient),
    [isLocked] is [retryAfterSeconds > 0], the other three members are the
    inputs, and [retryAfterSeconds] is never negative. *)
Theorem toStatus_computes_status {P : Platform} (env : AppEnv)
        (entity : Lockout.AuthStateEntity) (w : World) :
  getEnv ToNumber processEnv = inr env ->
  let now := clock w (ticks w) in
  let span := Lockout.lockUntilEpochMs entity - now in
  let s := Spec.computeStatus (Lockout.failedAttempts entity)
                              (Lockout.lockUntilEpochMs entity) now
                              (authMaxAttempts env) in
  Lockout.toStatus entity w = (Return s, tick w) /\
  Types.retryAfterSeconds s
  = Z.max 0 (Lockout.Math_ceil (Qdiv (inject_Z span) (inject_Z 1000))) /\
  (forall c, c = Lockout.Math_ceil (Qdiv (inject_Z span) (inject_Z 1000))
             <-> 1000 * (c - 1) < span <= 1000 * c) /\
  Types.isLocked s = (0 <? Types.retryAfterSeconds s) /\
  Types.failedAttempts s = Lockout.failedAttempts entity /\
  Types.maxAttempts s = authMaxAttempts env /\
  Types.lockUntilEpochMs s = Lockout.lockUntilEpochMs entity /\
  0 <= Types.retryAfterSeconds s.
Proof.
  intros Henv now span s.
  assert (Hr : Types.retryAfterSeconds s
               = Z.max 0 (Lockout.Math_ceil
                            (Qdiv (inject_Z span) (inject_Z 1000)))).
  { unfold s, span. simpl. rewrite Math_ceil_div. reflexivity. }
  split; [|split; [exact Hr|split; [|split; [reflexivity|]]]].
  - rewrite (toStatus_run env Henv). unfold s. rewrite statusAt_computeStatus.
    reflexivity.
  - intros c. rewrite Math_ceil_div. pose proof (ceilDiv_bounds span).
    split; [intros ->; assumption | lia].
  - repeat split. rewrite Hr. lia.
Qed.

Lemma toStatus_computes_status_witness :
  getEnv (@ToNumber Fixture.platform) (@processEnv Fixture.platform)
  = inr Fixture.env /\
  @Lockout.toStatus Fixture.platform (Spec.zeroEntity 7)
                    (Fixture.world None 1000)
  = (Return (Spec.computeStatus 0 0 1000 10), tick (Fixture.world None 1000)).
Proof.
  split; [reflexivity|].
  apply (toStatus_computes_status (P := Fixture.platform) Fixture.env
           (Spec.zeroEntity 7) (Fixture.world None 1000)).
  reflexivity.
Defined.


(* ===================================================================== *)
(** ** Failed attempts *)
(* ===================================================================== *)

(** C1.  From [UNLOCKED(n)] ([lockUntilEpochMs] zero, or not after the
    instant [now] that [recordFailedAttempt] reads), with a clock that reads
    no time before the epoch and a configuration that loads: [recordFailedAttempt]
    stores and reports [failedAttempts = n + 1] with [lockUntilEpochMs = 0]
    when [n + 1 < maxAttempts]; when [n + 1 >= maxAttempts] it stores
    [failedAttempts = 0] with
    [lockUntilEpochMs = now + lockMinutes * 60 * 1000], which lies strictly
    after [now]. *)
Theorem recordFailedAttempt_from_unlocked {P : Platform} (env : AppEnv)
        (w : World) (n lockUntil : Z) :
  getEnv ToNumber processEnv = inr env ->
  storageFault w = None ->
  Spec.counters (authRow w) = (n, lockUntil) ->
  (forall i, 0 <= clock w i) ->
  lockUntil = 0 \/ lockUntil <= Spec.nowAfterRead w ->
  let now := Spec.nowAfterRead w in
  let lockedUntil := now + authLockMinutes env * 60 * 1000 in
  exists status w' row,
    Lockout.recordFailedAttempt w = (Return status, w') /\
    authRow w' = Some row /\
    hd_error (tableWrites w') = Some row /\
    (n + 1 < authMaxAttempts env ->
     rowFailedAttempts row = Some (n + 1) /\
     rowLockUntilEpochMs row = Some 0 /\
     Types.failedAttempts status = n + 1 /\
     Types.lockUntilEpochMs status = 0 /\
     Types.isLocked status = false) /\
    (authMaxAttempts env <= n + 1 ->
     rowFailedAttempts row = Some 0 /\
     rowLockUntilEpochMs row = Some lockedUntil /\
     now < lockedUntil /\
     Types.failedAttempts status = 0 /\
     Types.lockUntilEpochMs status = lockedUntil).
Proof.
  intros Henv Hf Hc Hnow Hun now lockedUntil.
  assert (Hopen : snd (Spec.counters (authRow w)) <= Spec.nowAfterRead w).
  { rewrite Hc. cbn [snd].
    pose proof (Hnow (ticks w + Spec.entityClockReads (authRow w))%nat) as H0.
    fold (Spec.nowAfterRead w) in H0. lia. }
  pose proof (recordFailedAttempt_open_run env Henv w Hf Hopen) as Hrun.
  cbv zeta in Hrun.
  eexists _, _, _. split; [exact Hrun|].
  split; [reflexivity|]. split; [reflexivity|].
  destruct (getEnv_minimums _ _ _ Henv) as (_ & _ & Hmin).
  unfold Spec.attemptEntity, Spec.readEntity. rewrite Hc.
  cbn [fst snd Lockout.failedAttempts Lockout.lockUntilEpochMs].
  split; intros Hcmp.
  - destruct (Z.leb_spec (authMaxAttempts env) (n + 1)); [lia|].
    rewrite statusAt_computeStatus, isLocked_computeStatus.
    cbn. repeat split. apply Z.ltb_ge.
    rewrite clock_afterRead. apply Hnow.
  - destruct (Z.leb_spec (authMaxAttempts env) (n + 1)); [|lia].
    rewrite statusAt_computeStatus. cbn. repeat split.
    unfold lockedUntil. lia.
Qed.

Lemma recordFailedAttempt_from_unlocked_witness :
  let w := Fixture.world (Some (Fixture.record 9 0)) 1000 in
  (getEnv (@ToNumber Fixture.platform) (@processEnv Fixture.platform)
   = inr Fixture.env /\
   storageFault w = None /\
   Spec.counters (authRow w) = (9, 0) /\
   (forall i, 0 <= clock w i) /\
   (0 = 0 \/ 0 <= Spec.nowAfterRead w)) /\
  exists status w' row,
    @Lockout.recordFailedAttempt Fixture.platform w = (Return status, w') /\
    authRow w' = Some row /\
    rowFailedAttempts row = Some 0 /\
    rowLockUntilEpochMs row = Some 1801000.
Proof.
  intros w.
  assert (Hclock : forall i, 0 <= clock w i) by (intros i; simpl; lia).
  split.
  { repeat split; try reflexivity; [exact Hclock | left; reflexivity]. }
  destruct (recordFailedAttempt_from_unlocked (P := Fixture.platform)
              Fixture.env w 9 0 eq_refl eq_refl eq_refl Hclock
              (or_introl eq_refl))
    as (status & w' & row & Hrun & Hrow & _ & _ & Hlock).
  exists status, w', row. split; [exact Hrun|]. split; [exact Hrow|].
  destruct Hlock as (H1 & H2 & _); [simpl; lia|].
  split; [exact H1 | exact H2].
Defined.


(* ===================================================================== *)
(** ** The code guard *)
(* ===================================================================== *)

Lemma normalized_code code :
  trim (stripWhiteSpace code) = stripWhiteSpace code.
Proof. apply trim_stripped. Qed.

Lemma verifyTotpCode_guard {P : Platform} code w :
  isSixDigits (stripWhiteSpace code) = false ->
  Totp.verifyTotpCode code w = (Return false, w).
Proof.
  intros Hbad. unfold Totp.verifyTotpCode.
  rewrite normalized_code, Hbad. reflexivity.
Qed.

(** The library is reached only with six digits. *)
Lemma verifyTotpCode_calls_only_six_digits {P : Platform} code w :
  otpCalls (snd (Totp.verifyTotpCode code w)) <> otpCalls w ->
  Spec.sixAsciiDigits (stripWhiteSpace code).
Proof.
  intros Hcall. apply isSixDigits_spec.
  destruct (isSixDigits (stripWhiteSpace code)) eqn:E; [reflexivity|].
  rewrite (verifyTotpCode_guard code w E) in Hcall. contradiction.
Qed.

(** C4.  A code whose white-space-stripped form is not exactly six ASCII
    digits makes [verifyTotpCode] return [false]: it does not throw, and
    the world is as before, so the library that compares time steps has
    not been called. *)
Theorem verifyTotpCode_rejects_malformed {P : Platform} (code : jsstring)
        (w : World) :
  ~ Spec.sixAsciiDigits (stripWhiteSpace code) ->
  Totp.verifyTotpCode code w = (Return false, w) /\
  otpCalls (snd (Totp.verifyTotpCode code w)) = otpCalls w.
Proof.
  intros Hbad.
  assert (E : isSixDigits (stripWhiteSpace code) = false).
  { destruct (isSixDigits (stripWhiteSpace code)) eqn:E; [|reflexivity].
    exfalso. apply Hbad, isSixDigits_spec, E. }
  rewrite (verifyTotpCode_guard code w E). split; reflexivity.
Qed.

Lemma verifyTotpCode_rejects_malformed_witness :
  let code := lit " 12 34x " in
  ~ Spec.sixAsciiDigits (stripWhiteSpace code) /\
  @Totp.verifyTotpCode Fixture.platform code (Fixture.world None 5)
  = (Return false, Fixture.world None 5).
Proof.
  intros code.
  assert (Hbad : ~ Spec.sixAsciiDigits (stripWhiteSpace code)).
  { intros [Hlen _]. vm_compute in Hlen. discriminate. }
  split; [exact Hbad|].
  apply (verifyTotpCode_rejects_malformed (P := Fixture.platform) code
           (Fixture.world None 5) Hbad).
Defined.

(** With six digits the guard passes the stripped code on. *)
Lemma verifyTotpCode_pass {P : Platform} env code w :
  getEnv ToNumber processEnv = inr env ->
  isSixDigits (stripWhiteSpace code) = true ->
  Totp.verifyTotpCode code w
  = otp_verifySync (totpSecretBase32 env) (stripWhiteSpace code) w.
Proof.
  intros Henv Hok. unfold Totp.verifyTotpCode.
  rewrite normalized_code, Hok. simpl.
  erewrite bind_ok by (apply loadEnv_run; exact Henv). reflexivity.
Qed.

(* ===================================================================== *)
(** ** The login route *)
(* ===================================================================== *)

Lemma malformed_parse request :
  Spec.malformed request ->
  orElse (request_json request) Login.bodySchema_parse = inl plainError.
Proof.
  unfold request_json, orElse, Login.bodySchema_parse.
  intros [r E | r v E Hv | r fields E Hc | r fields v E Hc Hv
          | r fields s E Hc Hs]; rewrite E; try reflexivity.
  - destruct v; try reflexivity. exfalso. eapply Hv. reflexivity.
  - rewrite Hc. reflexivity.
  - rewrite Hc. destruct v; try reflexivity. exfalso. eapply Hv. reflexivity.
  - rewrite Hc, Hs. reflexivity.
Qed.

Lemma parse_malformed request e :
  orElse (request_json request) Login.bodySchema_parse = inl e ->
  Spec.malformed request.
Proof.
  unfold request_json, orElse, Login.bodySchema_parse.
  destruct (requestBody request) as [|v] eqn:E.
  - intros _. apply Spec.NoJson. exact E.
  - destruct v as [| | | |items|fields];
      try (intros _; eapply Spec.NoObject; [exact E | discriminate]).
    destruct (getField (lit "code") fields) as [v|] eqn:Hc.
    + destruct v as [| | |s| |];
        try (intros _; eapply Spec.NonStringCode;
             [exact E | exact Hc | discriminate]).
      destruct (trim s) as [|c t] eqn:Hs; [|discriminate].
      intros _. eapply Spec.EmptyCode; eassumption.
    + intros _. eapply Spec.MissingCode; eassumption.
Qed.

(** C8.  A malformed login payload (no JSON object, no [code], a [code]
    that is not a string or is empty once trimmed) is answered with 400
    and leaves the world as it was: the lockout store has been neither
    read nor written and the verifier has not been called. *)
Theorem malformed_login_touches_nothing {P : Platform}
        (request : NextRequest) (w : World) :
  Spec.malformed request ->
  Login.POST request w
  = (Return (json (ErrorBody (lit "Invalid request payload") None) 400), w) /\
  let w' := snd (Login.POST request w) in
  authRow w' = authRow w /\ tableReads w' = tableReads w /\
  tableWrites w' = tableWrites w /\ otpCalls w' = otpCalls w.
Proof.
  intros Hbad.
  assert (E : Login.POST request w
              = (Return (json (ErrorBody (lit "Invalid request payload")
                                         None) 400), w)).
  { unfold Login.POST. rewrite (malformed_parse request Hbad). reflexivity. }
  rewrite E. repeat split.
Qed.

Lemma malformed_login_touches_nothing_witness :
  let request := {| requestCookies := [];
                    requestBody := Json (VObject [(lit "code",
                                                   VString (lit "  "))]) |} in
  let w := Fixture.world (Some (Fixture.record 2 0)) 1000 in
  Spec.malformed request /\
  @Login.POST Fixture.platform request w
  = (Return (json (ErrorBody (lit "Invalid request payload") None) 400), w).
Proof.
  intros request w.
  assert (Hbad : Spec.malformed request).
  { eapply Spec.EmptyCode; reflexivity. }
  split; [exact Hbad|].
  apply (malformed_login_touches_nothing (P := Fixture.platform) request w
           Hbad).
Defined.

Section LoginRuns.

Context {P : Platform}.
Variable env : AppEnv.
Hypothesis Henv : getEnv ToNumber processEnv = inr env.

(** A well-formed login while the record is locked. *)
Lemma POST_locked_run request code w :
  orElse (request_json request) Login.bodySchema_parse = inr code ->
  storageFault w = None ->
  Spec.nowAfterRead w < snd (Spec.counters (authRow w)) ->
  Login.POST request w
  = (Return (json (ErrorBody Login.tooMany
                     (Some (Lockout.statusAt (Spec.readEntity w)
                                             (Spec.nowAfterRead w) env)))
                  423),
     tick (Spec.afterRead w)).
Proof.
  intros Hparse Hf Hlock. unfold Login.POST. rewrite Hparse.
  erewrite bind_ok by (apply (getLockoutStatus_run env Henv); exact Hf).
  rewrite statusAt_computeStatus, isLocked_computeStatus.
  cbn [Lockout.lockUntilEpochMs Spec.readEntity].
  destruct (Z.ltb_spec (Spec.nowAfterRead w) (snd (Spec.counters (authRow w))));
    [reflexivity | lia].
Qed.

End LoginRuns.

(** C2.  While the stored record is locked ([until] after the instant the
    status check reads), a login, whatever it submits, is rejected (423,
    or 400 for a malformed payload) without a session cookie; the record
    is as before, nothing has been written, and the verifier has not been
    called.  For a well-formed payload the store has been read once and
    the answer reports the lock and a positive [retryAfterSeconds]. *)
Theorem locked_login_rejected {P : Platform} (env : AppEnv) (w : World)
        (row : TableEntity) (until : Z) (request : NextRequest) :
  getEnv ToNumber processEnv = inr env ->
  storageFault w = None ->
  authRow w = Some row ->
  Lockout.orZero (rowLockUntilEpochMs row) = until ->
  Spec.nowAfterRead w < until ->
  exists response w',
    Login.POST request w = (Return response, w') /\
    (status response = 423 \/ status response = 400) /\
    setCookies response = [] /\
    authRow w' = Some row /\
    tableWrites w' = tableWrites w /\
    otpCalls w' = otpCalls w /\
    (forall code,
        orElse (request_json request) Login.bodySchema_parse = inr code ->
        status response = 423 /\
        tableReads w' = S (tableReads w) /\
        exists s,
          body response = ErrorBody Login.tooMany (Some s) /\
          Types.isLocked s = true /\
          0 < Types.retryAfterSeconds s /\
          Types.failedAttempts s = Lockout.orZero (rowFailedAttempts row) /\
          Types.lockUntilEpochMs s = until).
Proof.
  intros Henv Hf Hrow Huntil Hlock.
  destruct (orElse (request_json request) Login.bodySchema_parse)
    as [e|code] eqn:Hparse.
  - apply parse_malformed in Hparse.
    destruct (malformed_login_touches_nothing request w Hparse) as [E _].
    eexists _, _. split; [exact E|]. simpl.
    repeat split; auto; discriminate.
  - assert (Hl : Spec.nowAfterRead w < snd (Spec.counters (authRow w))).
    { rewrite Hrow. simpl. lia. }
    pose proof (POST_locked_run env Henv request code w Hparse Hf Hl) as E.
    destruct (afterRead_present w row Hrow) as [Hr Hw].
    eexists _, _. split; [exact E|]. simpl.
    rewrite otpCalls_afterRead, tableReads_afterRead.
    repeat split; auto.
    eexists. split; [reflexivity|].
    rewrite statusAt_computeStatus, isLocked_computeStatus.
    cbn [Lockout.lockUntilEpochMs Lockout.failedAttempts Spec.readEntity].
    rewrite Hrow. simpl.
    split; [apply Z.ltb_lt; lia|].
    split; [|split; [reflexivity | exact Huntil]].
    pose proof (ceilDiv_pos (Lockout.orZero (rowLockUntilEpochMs row)
                             - Spec.nowAfterRead w)). lia.
Qed.

Lemma locked_login_rejected_witness :
  let w := Fixture.world (Some (Fixture.record 0 9000)) 1000 in
  (getEnv (@ToNumber Fixture.platform) (@processEnv Fixture.platform)
   = inr Fixture.env /\
   storageFault w = None /\
   authRow w = Some (Fixture.record 0 9000) /\
   Lockout.orZero (rowLockUntilEpochMs (Fixture.record 0 9000)) = 9000 /\
   Spec.nowAfterRead w < 9000) /\
  exists response w',
    @Login.POST Fixture.platform (Fixture.login (lit "123456")) w
    = (Return response, w') /\
    authRow w' = Some (Fixture.record 0 9000) /\
    otpCalls w' = otpCalls w.
Proof.
  intros w.
  assert (Hl : Spec.nowAfterRead w < 9000) by (vm_compute; reflexivity).
  split.
  { repeat split; try reflexivity; exact Hl. }
  destruct (locked_login_rejected (P := Fixture.platform) Fixture.env w
              (Fixture.record 0 9000) 9000 (Fixture.login (lit "123456"))
              eq_refl eq_refl eq_refl eq_refl Hl)
    as (response & w' & Hrun & _ & _ & Hrow & _ & Hotp & _).
  exists response, w'. repeat split; assumption.
Defined.


(* ===================================================================== *)
(** ** A failed login *)
(* ===================================================================== *)

Section FailedLogin.

Context {P : Platform}.
Variable env : AppEnv.
Hypothesis Henv : getEnv ToNumber processEnv = inr env.

(** An invalid code leaves the guard with [false], the store untouched and
    the clock read at most once more. *)
Lemma verifyTotpCode_invalid_run code w :
  Spec.invalidCode env code (clock w (ticks w)) ->
  exists w2,
    Totp.verifyTotpCode code w = (Return false, w2) /\
    authRow w2 = authRow w /\ storageFault w2 = storageFault w /\
    clock w2 = clock w /\ tableWrites w2 = tableWrites w /\
    (ticks w <= ticks w2)%nat.
Proof.
  intros [Hbad | Hno].
  - exists w. rewrite (verifyTotpCode_guard code w Hbad). repeat split. lia.
  - destruct (isSixDigits (stripWhiteSpace code)) eqn:Hsix.
    + exists (noted (stripWhiteSpace code) (tick w)).
      rewrite (verifyTotpCode_pass env code w Henv Hsix).
      unfold otp_verifySync. rewrite Hno. repeat split. simpl. lia.
    + exists w. rewrite (verifyTotpCode_guard code w Hsix). repeat split. lia.
Qed.

(** A well-formed login with an invalid code, the record not locked at
    the status check: the answer is built from what [recordFailedAttempt]
    reports, run in a world [w2] whose store is the one just read. *)
Lemma POST_invalid_run request code w :
  orElse (request_json request) Login.bodySchema_parse = inr code ->
  storageFault w = None ->
  snd (Spec.counters (authRow w)) <= Spec.nowAfterRead w ->
  Spec.invalidCode env code (Spec.nowAtVerify w) ->
  exists w2,
    Login.POST request w
    = bind Lockout.recordFailedAttempt
        (fun lockout =>
           ret (json
                  (ErrorBody
                     (if Types.isLocked lockout then Login.tooMany
                      else lit "Invalid authenticator code")
                     (Some lockout))
                  (if Types.isLocked lockout then 423 else 401))) w2 /\
    authRow w2 = authRow (Spec.afterRead w) /\
    storageFault w2 = None /\ clock w2 = clock w /\
    tableWrites w2 = tableWrites (Spec.afterRead w) /\
    (ticks w + Spec.entityClockReads (authRow w) < ticks w2)%nat.
Proof.
  intros Hparse Hf Hopen Hinv. unfold Login.POST. rewrite Hparse.
  erewrite bind_ok by (apply (getLockoutStatus_run env Henv); exact Hf).
  rewrite statusAt_computeStatus, isLocked_computeStatus.
  cbn [Lockout.lockUntilEpochMs Spec.readEntity].
  destruct (Z.ltb_spec (Spec.nowAfterRead w) (snd (Spec.counters (authRow w))));
    [lia|].
  destruct (verifyTotpCode_invalid_run code (tick (Spec.afterRead w)))
    as (w2 & Hrun & Hrow & Hfault & Hclock & Hwrites & Hticks).
  { simpl. rewrite clock_afterRead, ticks_afterRead. exact Hinv. }
  exists w2. erewrite bind_ok by exact Hrun. simpl in *.
  rewrite Hrow, Hfault, Hclock, Hwrites, storageFault_afterRead, clock_afterRead.
  rewrite ticks_afterRead in Hticks.
  repeat split; auto; lia.
Qed.

End FailedLogin.

(** C3, as the code has it.  After a lock that has expired ([0 < until <=
    now]) a login with an invalid code counts on from the stored
    [failedAttempts]: with [n] stored and [n + 1 < maxAttempts] the new
    record has [failedAttempts = n + 1] and [lockUntilEpochMs = 0] and the
    answer is 401 with that count.  It is [UNLOCKED(1)] exactly for a
    stored count of 0, which is what every lock written by
    [recordFailedAttempt] holds. *)
Theorem login_after_expired_lock {P : Platform} (env : AppEnv) (w : World)
        (row : TableEntity) (n until : Z) (request : NextRequest)
        (code : jsstring) :
  getEnv ToNumber processEnv = inr env ->
  storageFault w = None ->
  authRow w = Some row ->
  Spec.counters (Some row) = (n, until) ->
  Spec.monotone w ->
  0 < until <= Spec.nowAfterRead w ->
  orElse (request_json request) Login.bodySchema_parse = inr code ->
  Spec.invalidCode env code (Spec.nowAtVerify w) ->
  n + 1 < authMaxAttempts env ->
  exists response w' next s,
    Login.POST request w = (Return response, w') /\
    status response = 401 /\
    body response = ErrorBody (lit "Invalid authenticator code") (Some s) /\
    Types.failedAttempts s = n + 1 /\
    Types.lockUntilEpochMs s = 0 /\
    authRow w' = Some next /\
    rowFailedAttempts next = Some (n + 1) /\
    rowLockUntilEpochMs next = Some 0 /\
    (n = 0 -> Spec.counters (authRow w') = (1, 0)).
Proof.
  intros Henv Hf Hrow Hc Hmono [Hpos Hexp] Hparse Hinv Hroom.
  assert (Hopen : snd (Spec.counters (authRow w)) <= Spec.nowAfterRead w).
  { rewrite Hrow, Hc. exact Hexp. }
  destruct (POST_invalid_run env Henv request code w Hparse Hf Hopen Hinv)
    as (w2 & Hrun & Hrow2 & Hf2 & Hclock2 & _ & Hticks2).
  destruct (afterRead_present w row Hrow) as [Hr _]. rewrite Hr in Hrow2.
  assert (Hlate : forall k, (ticks w + Spec.entityClockReads (authRow w) <= k)%nat
                            -> 0 < until <= clock w k).
  { intros k Hk. specialize (Hmono _ _ Hk).
    unfold Spec.nowAfterRead in Hexp. lia. }
  assert (Hopen2 : snd (Spec.counters (authRow w2)) <= Spec.nowAfterRead w2).
  { rewrite Hrow2, Hc. unfold Spec.nowAfterRead. rewrite Hclock2.
    apply Hlate. lia. }
  pose proof (recordFailedAttempt_open_run env Henv w2 Hf2 Hopen2) as Hrec.
  cbv zeta in Hrec. rewrite Hrun. erewrite bind_ok by exact Hrec.
  rewrite statusAt_computeStatus, isLocked_computeStatus.
  unfold Spec.attemptEntity, Spec.readEntity. rewrite Hrow2, Hc.
  cbn [fst snd Lockout.failedAttempts Lockout.lockUntilEpochMs].
  destruct (Z.leb_spec (authMaxAttempts env) (n + 1)); [lia|].
  match goal with
  | |- context [?t <? 0] =>
      assert (Hnl : (t <? 0) = false)
  end.
  { apply Z.ltb_ge. simpl. rewrite clock_afterRead, Hclock2.
    rewrite ticks_afterRead.
    specialize (Hlate (S (S (ticks w2 + Spec.entityClockReads (authRow w2))))).
    lia. }
  rewrite Hnl. eexists _, _, _, _. split; [reflexivity|].
  simpl. repeat split. intros ->. reflexivity.
Qed.

Lemma login_after_expired_lock_witness :
  let w := Fixture.world (Some (Fixture.record 0 1000)) 5000 in
  let request := Fixture.login (lit "000000") in
  (getEnv (@ToNumber Fixture.platform) (@processEnv Fixture.platform)
   = inr Fixture.env /\
   storageFault w = None /\
   Spec.counters (authRow w) = (0, 1000) /\
   Spec.monotone w /\
   0 < 1000 <= Spec.nowAfterRead w /\
   orElse (request_json request) Login.bodySchema_parse
   = inr (lit "000000") /\
   @Spec.invalidCode Fixture.platform Fixture.env (lit "000000")
                     (Spec.nowAtVerify w) /\
   0 + 1 < authMaxAttempts Fixture.env) /\
  exists response w',
    @Login.POST Fixture.platform request w = (Return response, w') /\
    status response = 401 /\
    Spec.counters (authRow w') = (1, 0).
Proof.
  intros w request.
  assert (Hmono : Spec.monotone w) by (intros i j _; simpl; lia).
  assert (Hexp : 0 < 1000 <= Spec.nowAfterRead w) by (vm_compute; split; congruence).
  assert (Hinv : @Spec.invalidCode Fixture.platform Fixture.env
                                   (lit "000000") (Spec.nowAtVerify w))
    by (right; reflexivity).
  assert (Hroom : 0 + 1 < authMaxAttempts Fixture.env) by reflexivity.
  split.
  { repeat split; try reflexivity; try assumption; apply Hexp. }
  destruct (login_after_expired_lock (P := Fixture.platform) Fixture.env w
              (Fixture.record 0 1000) 0 1000 request (lit "000000")
              eq_refl eq_refl eq_refl eq_refl Hmono Hexp eq_refl Hinv Hroom)
    as (response & w' & next & s & Hrun & Hstatus & _ & _ & _ & _ & _ & _ & Hone).
  exists response, w'. repeat split; auto.
Defined.

(** C3, as stated, fails.  The stored record is [LOCKED(1000)] with a
    stale [failedAttempts = 3]; at [now = 5000] the lock has expired; the
    submitted code 000000 is invalid.  The login leaves
    [failedAttempts = 4], not 1. *)
Lemma expired_lock_keeps_stale_count :
  let w := Fixture.world (Some (Fixture.record 3 1000)) 5000 in
  let request := Fixture.login (lit "000000") in
  let w' := snd (@Login.POST Fixture.platform request w) in
  Spec.counters (authRow w) = (3, 1000) /\
  1000 <= Spec.nowAfterRead w /\
  @Spec.invalidCode Fixture.platform Fixture.env (lit "000000")
                    (Spec.nowAtVerify w) /\
  Spec.counters (authRow w') = (4, 0) /\
  Spec.counters (authRow w') <> (1, 0).
Proof.
  repeat split; try (vm_compute; congruence).
  right. reflexivity.
Qed.

(** With [AUTH_MAX_ATTEMPTS=1] the first invalid code after an expired
    lock locks again at once, also from the stored count 0. *)
Example expired_lock_relocks_at_ceiling_one :
  let w := Fixture.world (Some (Fixture.record 0 1000)) 5000 in
  let request := Fixture.login (lit "000000") in
  let w' := snd (@Login.POST (Fixture.platformWith (Some (lit "1")))
                             request w) in
  Spec.counters (authRow w') = (0, 1805000).
Proof. vm_compute. reflexivity. Qed.


(* ===================================================================== *)
(** ** The session token *)
(* ===================================================================== *)

Lemma str_eqb_refl s : str_eqb s s = true.
Proof. apply str_eqb_eq. reflexivity. Qed.

Lemma str_eqb_neq a b : a <> b -> str_eqb a b = false.
Proof.
  intros Hne. destruct (str_eqb a b) eqn:E; [|reflexivity].
  apply str_eqb_eq in E. contradiction.
Qed.

(** C5.  [verifySessionToken] always returns a boolean, never throws.  It
    returns [true] only if the configuration loads, the token parses, its
    signature is the one made with the server secret, it is unexpired at
    the clock reading, and its payload has [authenticated] equal to
    [true].  A token that does not parse, whose signature differs, or that
    has expired gives [false]. *)
Theorem verifySessionToken_sound {P : Platform} (token : jsstring) (w : World) :
  exists b w',
    Session.verifySessionToken token w = (Return b, w') /\
    (b = true ->
     exists env jws,
       getEnv ToNumber processEnv = inr env /\
       jwsParse token = Some jws /\
       alg jws = Session.SESSION_ALGO /\
       signature jws = mac (sessionSecret env) (alg jws) (payload jws) /\
       Spec.unexpired (payload jws) (clock w (ticks w)) /\
       authenticated (payload jws) = Some (VBool true)) /\
    (jwsParse token = None -> b = false) /\
    (forall env jws,
        getEnv ToNumber processEnv = inr env ->
        jwsParse token = Some jws ->
        signature jws <> mac (sessionSecret env) (alg jws) (payload jws) ->
        b = false) /\
    (forall jws,
        jwsParse token = Some jws ->
        ~ Spec.unexpired (payload jws) (clock w (ticks w)) ->
        b = false).
Proof.
  cbv beta iota zeta delta
      [Session.verifySessionToken tryCatch bind Session.getSecretKey
       loadEnv Jose.jwtVerify ret throw Date_now].
  destruct (getEnv ToNumber processEnv) as [e|env] eqn:Henv.
  { exists false, w. split; [reflexivity|].
    repeat split; try reflexivity; discriminate. }
  destruct (jwsParse token) as [jws|] eqn:Hparse.
  2:{ exists false, w. split; [reflexivity|].
      repeat split; try reflexivity; discriminate. }
  cbn [existsb].
  destruct (str_eqb (alg jws) Session.SESSION_ALGO) eqn:Halg; cbn [orb negb].
  2:{ exists false, w. split; [reflexivity|].
      repeat split; try reflexivity; discriminate. }
  apply str_eqb_eq in Halg.
  destruct (str_eqb (signature jws)
                    (mac (sessionSecret env) (alg jws) (payload jws)))
    eqn:Hsig; cbn [negb].
  2:{ exists false, w. split; [reflexivity|].
      repeat split; try reflexivity; discriminate. }
  apply str_eqb_eq in Hsig.
  assert (Hmis : forall env' jws',
             @inr thrown AppEnv env = inr env' -> Some jws = Some jws' ->
             signature jws' <> mac (sessionSecret env') (alg jws') (payload jws') ->
             forall b : bool, b = false).
  { intros env' jws' [= <-] [= <-] Hne. contradiction. }
  unfold Spec.unexpired.
  destruct (exp (payload jws)) as [e|] eqn:Hexp.
  - destruct (Z.leb_spec e (Jose.epoch (clock w (ticks w)))) as [Hle|Hlt].
    + exists false, (tick w). split; [reflexivity|].
      repeat split; try reflexivity; try discriminate.
    + exists (Session.isTrue (authenticated (payload jws))), (tick w).
      split; [reflexivity|]. split; [|split; [discriminate|split]].
      * intros Htrue. exists env, jws. repeat split; auto.
        -- rewrite Hexp. exact Hlt.
        -- unfold Session.isTrue in Htrue.
           destruct (authenticated (payload jws)) as [[| [|] | | | |]|];
             try discriminate. reflexivity.
      * intros env' jws' He Hj Hne. exact (Hmis env' jws' He Hj Hne _).
      * intros jws' [= <-]. rewrite Hexp. intros Hn. contradiction.
  - exists (Session.isTrue (authenticated (payload jws))), (tick w).
    split; [reflexivity|]. split; [|split; [discriminate|split]].
    * intros Htrue. exists env, jws. repeat split; auto.
      -- rewrite Hexp. exact I.
      -- unfold Session.isTrue in Htrue.
         destruct (authenticated (payload jws)) as [[| [|] | | | |]|];
           try discriminate. reflexivity.
    * intros env' jws' He Hj Hne. exact (Hmis env' jws' He Hj Hne _).
    * intros jws' [= <-]. rewrite Hexp. intros Hn. exfalso. apply Hn. exact I.
Qed.

Section SessionRuns.

Context {P : Platform}.
Variable env : AppEnv.
Hypothesis Henv : getEnv ToNumber processEnv = inr env.

Lemma createSessionToken_run w :
  Session.createSessionToken w
  = (Return (jwsCompact (Spec.sessionJws env (clock w (ticks w))
                                         (clock w (S (ticks w))))),
     tick (tick w)).
Proof.
  unfold Session.createSessionToken, Session.getSecretKey.
  erewrite bind_ok by (apply loadEnv_run; exact Henv).
  do 2 (erewrite bind_ok by apply Date_now_run).
  erewrite bind_ok.
  2:{ erewrite bind_ok by (apply loadEnv_run; exact Henv). reflexivity. }
  reflexivity.
Qed.

(** Verifying, at clock reading [t], a token of this server that the
    library reads back. *)
Lemma verifySessionToken_own issued started w :
  let jws := Spec.sessionJws env issued started in
  jwsParse (jwsCompact jws) = Some jws ->
  Session.verifySessionToken (jwsCompact jws) w
  = (Return (negb (Jose.epoch started + Jose.secsOfHours (sessionTtlHours env)
                   <=? Jose.epoch (clock w (ticks w)))),
     tick w).
Proof.
  intros jws Hback.
  cbv beta iota zeta delta
      [Session.verifySessionToken tryCatch bind Session.getSecretKey
       loadEnv Jose.jwtVerify ret throw Date_now].
  rewrite Henv, Hback. unfold jws, Spec.sessionJws.
  cbn [alg payload signature exp authenticated existsb].
  rewrite !str_eqb_refl. cbn [orb negb].
  destruct (Jose.epoch started + Jose.secsOfHours (sessionTtlHours env)
            <=? Jose.epoch (clock w (ticks w))); reflexivity.
Qed.

End SessionRuns.

Lemma epoch_after_ttl now h :
  Jose.epoch (now + h * 3600000 + 1000)
  = Jose.epoch now + Jose.secsOfHours h + 1.
Proof.
  unfold Jose.epoch, Jose.secsOfHours.
  replace (now + h * 3600000 + 1000) with (now + (h * 3600 + 1) * 1000) by lia.
  rewrite Z.div_add by lia. lia.
Qed.

(** C6.  With a configuration that loads (so [ttlHours >= 1]) and a token
    library that reads back the token it has written: the token issued
    while the clock stands at [now] verifies [true] at [now] and [false]
    at [now + ttlHours] hours [+ 1] second. *)
Theorem session_round_trip {P : Platform} (env : AppEnv) (now : Z)
        (w w1 w2 : World) :
  getEnv ToNumber processEnv = inr env ->
  jwsParse (jwsCompact (Spec.sessionJws env now now))
  = Some (Spec.sessionJws env now now) ->
  Spec.frozen now w ->
  Spec.frozen now w1 ->
  Spec.frozen (now + sessionTtlHours env * 3600000 + 1000) w2 ->
  1 <= sessionTtlHours env /\
  exists token,
    Session.createSessionToken w = (Return token, tick (tick w)) /\
    fst (Session.verifySessionToken token w1) = Return true /\
    fst (Session.verifySessionToken token w2) = Return false.
Proof.
  intros Henv Hback Hw Hw1 Hw2.
  destruct (getEnv_minimums _ _ _ Henv) as (Httl & _ & _).
  split; [exact Httl|].
  exists (jwsCompact (Spec.sessionJws env now now)).
  split; [|split].
  - rewrite (createSessionToken_run env Henv), !Hw. reflexivity.
  - rewrite (verifySessionToken_own env Henv now now w1 Hback), Hw1. simpl.
    destruct (Z.leb_spec (Jose.epoch now + Jose.secsOfHours (sessionTtlHours env))
                         (Jose.epoch now)) as [Hle|Hlt]; [|reflexivity].
    unfold Jose.secsOfHours in Hle. lia.
  - rewrite (verifySessionToken_own env Henv now now w2 Hback), Hw2. simpl.
    rewrite epoch_after_ttl.
    destruct (Z.leb_spec (Jose.epoch now + Jose.secsOfHours (sessionTtlHours env))
                         (Jose.epoch now + Jose.secsOfHours (sessionTtlHours env) + 1))
      as [Hle|Hlt]; [reflexivity | lia].
Qed.

Lemma session_round_trip_witness :
  let now := 1700000000123 in
  let w := Fixture.world None now in
  let w2 := Fixture.world None (now + 12 * 3600000 + 1000) in
  (getEnv (@ToNumber Fixture.platform) (@processEnv Fixture.platform)
   = inr Fixture.env /\
   @jwsParse Fixture.platform
     (@jwsCompact Fixture.platform
        (@Spec.sessionJws Fixture.platform Fixture.env now now))
   = Some (@Spec.sessionJws Fixture.platform Fixture.env now now) /\
   Spec.frozen now w /\
   Spec.frozen (now + sessionTtlHours Fixture.env * 3600000 + 1000) w2) /\
  exists token,
    @Session.createSessionToken Fixture.platform w
    = (Return token, tick (tick w)) /\
    fst (@Session.verifySessionToken Fixture.platform token w) = Return true /\
    fst (@Session.verifySessionToken Fixture.platform token w2) = Return false.
Proof.
  intros now w w2.
  assert (Hw : Spec.frozen now w) by (intros i; reflexivity).
  assert (Hw2 : Spec.frozen (now + sessionTtlHours Fixture.env * 3600000 + 1000)
                            w2) by (intros i; reflexivity).
  split.
  { repeat split; try reflexivity; assumption. }
  apply (session_round_trip (P := Fixture.platform) Fixture.env now w w w2
           eq_refl eq_refl Hw Hw Hw2).
Defined.


(* ===================================================================== *)
(** ** Status queries *)
(* ===================================================================== *)

Lemma later_frame k w :
  authRow (Spec.later k w) = authRow w /\
  storageFault (Spec.later k w) = storageFault w /\
  clock (Spec.later k w) = clock w /\
  tableWrites (Spec.later k w) = tableWrites w.
Proof.
  induction k as [|k IH]; simpl; [repeat split|]. exact IH.
Qed.

(** [verifySessionToken] ends normally and only reads the clock. *)
Lemma verifySessionToken_later {P : Platform} token w :
  exists b k, Session.verifySessionToken token w = (Return b, Spec.later k w).
Proof.
  cbv beta iota zeta delta
      [Session.verifySessionToken tryCatch bind Session.getSecretKey
       loadEnv Jose.jwtVerify ret throw Date_now].
  destruct (getEnv ToNumber processEnv); [exists false, 0%nat; reflexivity|].
  destruct (jwsParse token) as [jws|]; [|exists false, 0%nat; reflexivity].
  destruct (negb (existsb (str_eqb (alg jws)) [Session.SESSION_ALGO]));
    [exists false, 0%nat; reflexivity|].
  destruct (negb (str_eqb (signature jws) _));
    [exists false, 0%nat; reflexivity|].
  destruct (exp (payload jws)) as [e|].
  - destruct (e <=? Jose.epoch (clock w (ticks w)));
      eexists _, 1%nat; reflexivity.
  - eexists _, 1%nat; reflexivity.
Qed.

Lemma isAuthenticatedRequest_later {P : Platform} request w :
  exists b k,
    Session.isAuthenticatedRequest request w = (Return b, Spec.later k w).
Proof.
  unfold Session.isAuthenticatedRequest.
  destruct (cookies_get Session.SESSION_COOKIE (requestCookies request))
    as [[|c token]|]; try (exists false, 0%nat; reflexivity).
  apply verifySessionToken_later.
Qed.

Section Queries.

Context {P : Platform}.
Variable env : AppEnv.
Hypothesis Henv : getEnv ToNumber processEnv = inr env.

(** One status query: the store keeps its counters, a record that was
    there is not written, and the answer is [computeStatus] of the
    counters at some reading of the clock. *)
Lemma GET_run request w :
  storageFault w = None ->
  exists response w',
    State.GET request w = (Return response, w') /\
    storageFault w' = None /\ clock w' = clock w /\
    Spec.counters (authRow w') = Spec.counters (authRow w) /\
    (forall row, authRow w = Some row ->
                 authRow w' = Some row /\ tableWrites w' = tableWrites w) /\
    exists i,
      Spec.lockoutOf response
      = Some (Spec.computeStatus (fst (Spec.counters (authRow w)))
                                 (snd (Spec.counters (authRow w)))
                                 (clock w i) (authMaxAttempts env)).
Proof.
  intros Hf. unfold State.GET.
  destruct (isAuthenticatedRequest_later request w) as (b & k & Hauth).
  destruct (later_frame k w) as (Hrow & Hfault & Hclock & Hwrites).
  erewrite bind_ok by exact Hauth.
  assert (Hf1 : storageFault (Spec.later k w) = None) by congruence.
  erewrite bind_ok by (apply (getLockoutStatus_run env Henv); exact Hf1).
  eexists _, _. split; [reflexivity|]. simpl.
  rewrite storageFault_afterRead, clock_afterRead, counters_afterRead, Hrow.
  split; [exact Hf1|]. split; [exact Hclock|]. split; [reflexivity|]. split.
  - intros row Hr.
    destruct (afterRead_present (Spec.later k w) row) as [H1 H2];
      [congruence|].
    split; congruence.
  - exists (ticks (Spec.later k w)
            + Spec.entityClockReads (authRow (Spec.later k w)))%nat.
    unfold Spec.lockoutOf. simpl. rewrite statusAt_computeStatus.
    unfold Spec.nowAfterRead. simpl. rewrite Hrow, Hclock. reflexivity.
Qed.

End Queries.

(** C9.  Any number of status queries in a row, from any stored state, the
    absent record included: all are answered, the record's
    [failedAttempts] and [lockUntil] are afterwards what they were (a
    record that existed is not written at all), and while the clock
    stands at one time [t] every query returns the same [LockoutStatus],
    the spec's [computeStatus] of the record at [t]. *)
Theorem status_queries_idempotent {P : Platform} (env : AppEnv)
        (requests : list NextRequest) (w : World) :
  getEnv ToNumber processEnv = inr env ->
  storageFault w = None ->
  exists responses w',
    Spec.statusQueries requests w = (Return responses, w') /\
    List.length responses = List.length requests /\
    Spec.counters (authRow w') = Spec.counters (authRow w) /\
    (forall row, authRow w = Some row ->
                 authRow w' = Some row /\ tableWrites w' = tableWrites w) /\
    (forall t, Spec.frozen t w ->
       Forall (fun response =>
                 Spec.lockoutOf response
                 = Some (Spec.computeStatus
                           (fst (Spec.counters (authRow w)))
                           (snd (Spec.counters (authRow w)))
                           t (authMaxAttempts env)))
              responses).
Proof.
  intros Henv. revert w.
  induction requests as [|request rest IH]; intros w Hf.
  - exists [], w. simpl. repeat split; auto.
  - destruct (GET_run env Henv request w Hf)
      as (response & w1 & Hrun & Hf1 & Hclock1 & Hc1 & Hkeep1 & i & Hstatus).
    destruct (IH w1 Hf1) as (others & w' & Hrest & Hlen & Hc & Hkeep & Hsame).
    exists (response :: others), w'. split.
    { simpl. erewrite bind_ok by exact Hrun.
      erewrite bind_ok by exact Hrest. reflexivity. }
    split; [simpl; congruence|]. split; [congruence|]. split.
    { intros row Hrow. destruct (Hkeep1 row Hrow) as [Hr1 Hw1].
      destruct (Hkeep row Hr1) as [Hr Hw]. split; congruence. }
    intros t Ht. constructor.
    + rewrite Hstatus, Ht. reflexivity.
    + rewrite <- Hc1. apply Hsame. intros j. rewrite Hclock1. apply Ht.
Qed.

Lemma status_queries_idempotent_witness :
  let request := {| requestCookies := []; requestBody := NotJson |} in
  let w := Fixture.world None 1000 in
  (getEnv (@ToNumber Fixture.platform) (@processEnv Fixture.platform)
   = inr Fixture.env /\
   storageFault w = None) /\
  exists responses w',
    @Spec.statusQueries Fixture.platform [request; request; request] w
    = (Return responses, w') /\
    Spec.counters (authRow w') = (0, 0).
Proof.
  intros request w. split; [split; reflexivity|].
  destruct (status_queries_idempotent (P := Fixture.platform) Fixture.env
              [request; request; request] w eq_refl eq_refl)
    as (responses & w' & Hrun & _ & Hc & _).
  exists responses, w'. split; [exact Hrun | exact Hc].
Defined.

(* ===================================================================== *)
(** ** The invariant of the stored record *)
(* ===================================================================== *)

Lemma wellFormed_asRow maxAttempts entity :
  Lockout.failedAttempts entity < maxAttempts ->
  (Lockout.lockUntilEpochMs entity <> 0 -> Lockout.failedAttempts entity = 0) ->
  Spec.wellFormed maxAttempts (Lockout.asRow entity).
Proof. intros Hn Hl. eexists _, _. simpl. eauto. Qed.

Create HintDb keeps discriminated.

Section Invariant.

Context {P : Platform}.
Variable env : AppEnv.
Hypothesis Henv : getEnv ToNumber processEnv = inr env.
Variable base : list TableEntity.
Variable initial : option TableEntity.

Local Abbreviation inv := (Spec.sound (authMaxAttempts env) base initial).

Lemma keeps_ret {A} (a : A) : Spec.keeps inv (ret a).
Proof. intros w Hw. exact Hw. Qed.

Lemma keeps_throw {A} e : Spec.keeps inv (@throw A e).
Proof. intros w Hw. exact Hw. Qed.

Lemma keeps_bind {A B} (m : M A) (k : A -> M B) :
  Spec.keeps inv m -> (forall a, Spec.keeps inv (k a)) ->
  Spec.keeps inv (bind m k).
Proof.
  intros Hm Hk w Hw. specialize (Hm w Hw). unfold bind.
  destruct (m w) as [[a|e] w1]; simpl in *; [apply Hk|]; exact Hm.
Qed.

(** As [keeps_bind], knowing what the first computation returns. *)
Lemma keeps_bind_post {A B} (m : M A) (k : A -> M B) (Q : A -> Prop) :
  Spec.keeps inv m ->
  (forall w a, fst (m w) = Return a -> Q a) ->
  (forall a, Q a -> Spec.keeps inv (k a)) ->
  Spec.keeps inv (bind m k).
Proof.
  intros Hm HQ Hk w Hw. specialize (Hm w Hw). specialize (HQ w).
  unfold bind. destruct (m w) as [[a|e] w1]; simpl in *; [|exact Hm].
  apply Hk; [apply HQ; reflexivity | exact Hm].
Qed.

Lemma keeps_tryCatch {A} (m : M A) (handler : thrown -> M A) :
  Spec.keeps inv m -> (forall e, Spec.keeps inv (handler e)) ->
  Spec.keeps inv (tryCatch m handler).
Proof.
  intros Hm Hh w Hw. specialize (Hm w Hw). unfold tryCatch.
  destruct (m w) as [[a|e] w1]; simpl in *; [|apply Hh]; exact Hm.
Qed.

(** The configuration a handler loads is [env]. *)
Lemma keeps_loadEnv {B} (k : AppEnv -> M B) :
  Spec.keeps inv (k env) -> Spec.keeps inv (bind loadEnv k).
Proof.
  intros Hk w Hw. rewrite (bind_ok _ _ _ _ _ (loadEnv_run env Henv w)).
  apply Hk, Hw.
Qed.

(** What leaves the record and the write log alone keeps the invariant. *)
Lemma keeps_frame {A} (m : M A) :
  (forall w, authRow (snd (m w)) = authRow w /\
             tableWrites (snd (m w)) = tableWrites w) ->
  Spec.keeps inv m.
Proof.
  intros Hm w [Hw Hr]. destruct (Hm w) as [E1 E2].
  split; intros row; rewrite ?E1, ?E2; auto.
Qed.

Lemma keeps_Date_now : Spec.keeps inv Date_now.
Proof. apply keeps_frame. intros w. split; reflexivity. Qed.

Lemma keeps_initializeStorage : Spec.keeps inv initializeStorage.
Proof.
  unfold initializeStorage. apply keeps_loadEnv, keeps_frame.
  intros w. destruct (storageFault w); split; reflexivity.
Qed.

Lemma keeps_table_getEntity : Spec.keeps inv table_getEntity.
Proof.
  apply keeps_frame. intros w. unfold table_getEntity.
  destruct (storageFault w); [split; reflexivity|].
  destruct (authRow w) eqn:E; simpl; rewrite ?E; split; reflexivity.
Qed.

Lemma keeps_otp_verifySync secret token :
  Spec.keeps inv (otp_verifySync secret token).
Proof.
  apply keeps_frame. intros w. unfold otp_verifySync.
  destruct (otpVerify secret token (clock w (ticks w))); split; reflexivity.
Qed.

(** A write keeps the invariant when the record written is well formed. *)
Lemma keeps_table_upsertEntity row :
  Spec.wellFormed (authMaxAttempts env) row ->
  Spec.keeps inv (table_upsertEntity row).
Proof.
  intros Hrow w [Hw Hr]. unfold table_upsertEntity.
  destruct (storageFault w); [split; assumption|].
  split; simpl.
  - intros r [<-|Hin]; auto.
  - intros r [= <-]. auto.
Qed.

Lemma keeps_saveEntity entity :
  Spec.wellFormed (authMaxAttempts env) (Lockout.asRow entity) ->
  Spec.keeps inv (Lockout.saveEntity entity).
Proof.
  intros Hrow. unfold Lockout.saveEntity.
  apply keeps_bind; [apply keeps_initializeStorage|intros _].
  apply keeps_table_upsertEntity, Hrow.
Qed.

Hint Resolve keeps_ret keeps_throw keeps_Date_now keeps_initializeStorage
  keeps_table_getEntity keeps_otp_verifySync : keeps.

Ltac keeping :=
  repeat first
    [ solve [auto with keeps]
    | match goal with
      | |- Spec.keeps _ (bind loadEnv _) => apply keeps_loadEnv; cbv beta
      | |- Spec.keeps _ (bind _ _) => apply keeps_bind; [|intro; cbv beta]
      | |- Spec.keeps _ (tryCatch _ _) =>
          apply keeps_tryCatch; [|intro; cbv beta]
      | |- Spec.keeps _ (let _ := _ in _) => cbv zeta
      | |- Spec.keeps _ (if ?b then _ else _) => destruct b
      | |- Spec.keeps _ (match ?x with _ => _ end) => destruct x
      end ].

Lemma keeps_getEntity : Spec.keeps inv Lockout.getEntity.
Proof.
  pose proof (getEnv_minimums _ _ _ Henv) as (_ & Hmax & _).
  unfold Lockout.getEntity, Lockout.normalizeEntity.
  apply keeps_bind; [auto with keeps|intros _].
  apply keeps_tryCatch; [keeping|intros e].
  destruct (negb (Lockout.isNotFoundError e)); [auto with keeps|].
  apply keeps_bind_post
    with (Q := fun created => Lockout.failedAttempts created = 0 /\
                              Lockout.lockUntilEpochMs created = 0).
  - unfold Lockout.defaultEntity. keeping.
  - intros w created Hrun. injection Hrun as <-. split; reflexivity.
  - intros created [Hn Hl].
    apply keeps_bind; [|intros _; auto with keeps].
    apply keeps_table_upsertEntity, wellFormed_asRow; rewrite ?Hn, ?Hl;
      [lia|congruence].
Qed.

Lemma keeps_toStatus entity : Spec.keeps inv (Lockout.toStatus entity).
Proof. unfold Lockout.toStatus. keeping. Qed.

Hint Resolve keeps_getEntity keeps_toStatus : keeps.

Lemma keeps_getLockoutStatus : Spec.keeps inv Lockout.getLockoutStatus.
Proof. unfold Lockout.getLockoutStatus. keeping. Qed.

Lemma keeps_recordFailedAttempt : Spec.keeps inv Lockout.recordFailedAttempt.
Proof.
  pose proof (getEnv_minimums _ _ _ Henv) as (_ & Hmax & _).
  unfold Lockout.recordFailedAttempt. keeping.
  apply keeps_saveEntity, wellFormed_asRow; simpl;
    match goal with
    | |- context [authMaxAttempts env <=? ?n] =>
        destruct (Z.leb_spec (authMaxAttempts env) n)
    end; solve [lia | congruence].
Qed.

Lemma keeps_resetFailedAttempts : Spec.keeps inv Lockout.resetFailedAttempts.
Proof.
  pose proof (getEnv_minimums _ _ _ Henv) as (_ & Hmax & _).
  unfold Lockout.resetFailedAttempts. keeping.
  apply keeps_saveEntity, wellFormed_asRow; simpl; [lia|congruence].
Qed.

Hint Resolve keeps_getLockoutStatus keeps_recordFailedAttempt
  keeps_resetFailedAttempts : keeps.

Lemma keeps_verifyTotpCode code : Spec.keeps inv (Totp.verifyTotpCode code).
Proof. unfold Totp.verifyTotpCode. keeping. Qed.

Lemma keeps_verifySessionToken token :
  Spec.keeps inv (Session.verifySessionToken token).
Proof.
  unfold Session.verifySessionToken, Session.getSecretKey, Jose.jwtVerify.
  keeping.
Qed.

Lemma keeps_setSessionCookie response :
  Spec.keeps inv (Session.setSessionCookie response).
Proof.
  unfold Session.setSessionCookie, Session.createSessionToken,
    Session.getSecretKey.
  keeping.
Qed.

Hint Resolve keeps_verifyTotpCode keeps_verifySessionToken
  keeps_setSessionCookie : keeps.

Lemma keeps_POST request : Spec.keeps inv (Login.POST request).
Proof. unfold Login.POST. keeping. Qed.

Lemma keeps_GET request : Spec.keeps inv (State.GET request).
Proof. unfold State.GET, Session.isAuthenticatedRequest. keeping. Qed.

Lemma keeps_exec c w : inv w -> inv (Spec.exec c w).
Proof.
  intros Hw. destruct c; simpl.
  - apply keeps_getLockoutStatus, Hw.
  - apply keeps_recordFailedAttempt, Hw.
  - apply keeps_resetFailedAttempts, Hw.
  - apply keeps_POST, Hw.
  - apply keeps_GET, Hw.
Qed.

Lemma keeps_execAll calls : forall w, inv w -> inv (Spec.execAll calls w).
Proof.
  unfold Spec.execAll.
  induction calls as [|c rest IH]; intros w Hw; simpl; [exact Hw|].
  apply IH, keeps_exec, Hw.
Qed.

End Invariant.

(** C10.  Whatever sequence of status queries, failed attempts, resets,
    logins and state requests runs against the store, every record written
    meanwhile (by default materialization, [recordFailedAttempt] or
    [resetFailedAttempts]) has [failedAttempts] strictly below the
    configured [maxAttempts], and [failedAttempts = 0] whenever its
    [lockUntilEpochMs] is not zero; the record in the store at the end is
    the one found at the start or such a record, so a stored counter at or
    above the ceiling is never produced. *)
Theorem written_records_well_formed {P : Platform} (env : AppEnv)
        (calls : list Spec.call) (w : World) :
  getEnv ToNumber processEnv = inr env ->
  let w' := Spec.execAll calls w in
  (forall row, In row (tableWrites w') ->
     In row (tableWrites w) \/
     exists n l,
       rowFailedAttempts row = Some n /\ rowLockUntilEpochMs row = Some l /\
       n < authMaxAttempts env /\ (l <> 0 -> n = 0)) /\
  (forall row, authRow w' = Some row ->
     authRow w = Some row \/ Spec.wellFormed (authMaxAttempts env) row) /\
  ((forall row, authRow w = Some row ->
                Spec.wellFormed (authMaxAttempts env) row) ->
   forall n l, Spec.counters (authRow w') = (n, l) ->
               n < authMaxAttempts env /\ (l <> 0 -> n = 0)).
Proof.
  intros Henv w'.
  assert (Hinv : Spec.sound (authMaxAttempts env) (tableWrites w) (authRow w) w').
  { apply keeps_execAll; [exact Henv|]. split; auto. }
  destruct Hinv as [Hwrites Hrow].
  split; [exact Hwrites|]. split; [exact Hrow|].
  intros Hstart n l Hc.
  pose proof (getEnv_minimums _ _ _ Henv) as (_ & Hmax & _).
  destruct (authRow w') as [row|] eqn:Hr.
  - assert (Hwf : Spec.wellFormed (authMaxAttempts env) row).
    { destruct (Hrow row eq_refl) as [H0|H0]; [apply Hstart|]; exact H0. }
    destruct Hwf as (n0 & l0 & Hn & Hl & Hlt & Hz).
    simpl in Hc. rewrite Hn, Hl in Hc. simpl in Hc.
    injection Hc as <- <-. auto.
  - simpl in Hc. injection Hc as <- <-. split; [lia|reflexivity].
Qed.

Lemma written_records_well_formed_witness :
  let calls :=
    [Spec.CallLogin (Fixture.login (lit "000000"));
     Spec.CallRecordFailedAttempt;
     Spec.CallState {| requestCookies := []; requestBody := NotJson |};
     Spec.CallResetFailedAttempts;
     Spec.CallGetLockoutStatus] in
  let w := Fixture.world None 1000 in
  getEnv (@ToNumber Fixture.platform) (@processEnv Fixture.platform)
  = inr Fixture.env /\
  List.length (tableWrites (@Spec.execAll Fixture.platform calls w)) = 4%nat /\
  forall row,
    In row (tableWrites (@Spec.execAll Fixture.platform calls w)) ->
    In row (tableWrites w) \/
    exists n l,
      rowFailedAttempts row = Some n /\ rowLockUntilEpochMs row = Some l /\
      n < 10 /\ (l <> 0 -> n = 0).
Proof.
  intros calls w. split; [reflexivity|]. split; [vm_compute; reflexivity|].
  apply (written_records_well_formed (P := Fixture.platform) Fixture.env
           calls w eq_refl).
Defined.

(* ===================================================================== *)
(** ** Trimmed strings *)
(* ===================================================================== *)

Lemma trimStart_head s c :
  hd_error (trimStart s) = Some c -> isWhiteSpace c = false.
Proof.
  induction s as [|x r IH]; simpl; [discriminate|].
  destruct (isWhiteSpace x) eqn:E; [exact IH|].
  simpl. intros [= <-]. exact E.
Qed.

Lemma trimStart_fixed s :
  (forall c, hd_error s = Some c -> isWhiteSpace c = false) ->
  trimStart s = s.
Proof.
  destruct s as [|x r]; simpl; [reflexivity|].
  intros H. rewrite (H x eq_refl). reflexivity.
Qed.

Lemma trimStart_split s :
  exists before, s = before ++ trimStart s /\ Scenario.blank before.
Proof.
  induction s as [|x r (before & E & Hb)]; simpl.
  - exists []. split; [reflexivity|constructor].
  - destruct (isWhiteSpace x) eqn:Hx.
    + exists (x :: before). split; [simpl; congruence|].
      constructor; assumption.
    + exists []. split; [reflexivity|constructor].
Qed.

Lemma blank_rev s : Scenario.blank s -> Scenario.blank (rev s).
Proof. unfold Scenario.blank. apply Forall_rev. Qed.

Lemma trimEnd_split s :
  exists after, s = trimEnd s ++ after /\ Scenario.blank after.
Proof.
  destruct (trimStart_split (rev s)) as (before & E & Hb).
  exists (rev before). split; [|apply blank_rev, Hb].
  unfold trimEnd. rewrite <- rev_app_distr, <- E. symmetry.
  apply rev_involutive.
Qed.

Lemma trim_split s :
  exists before after,
    s = before ++ trim s ++ after /\
    Scenario.blank before /\ Scenario.blank after.
Proof.
  destruct (trimStart_split s) as (before & E1 & H1).
  destruct (trimEnd_split (trimStart s)) as (after & E2 & H2).
  exists before, after. unfold trim. rewrite <- E2. auto.
Qed.

Lemma trim_clean s : Scenario.clean (trim s).
Proof.
  split; intros c Hc.
  - destruct (trimEnd_split (trimStart s)) as (after & E & _).
    apply (trimStart_head s). rewrite E. fold (trim s).
    destruct (trim s); [discriminate|exact Hc].
  - unfold trim, trimEnd in Hc. rewrite rev_involutive in Hc.
    apply trimStart_head in Hc. exact Hc.
Qed.

Lemma trim_fixed s : Scenario.clean s -> trim s = s.
Proof.
  intros [Hh Hl]. unfold trim, trimEnd.
  rewrite (trimStart_fixed s Hh), (trimStart_fixed (rev s) Hl).
  apply rev_involutive.
Qed.

Lemma trimStart_blank s : Scenario.blank s -> trimStart s = [].
Proof.
  induction 1 as [|x r Hx _ IH]; simpl; [reflexivity|].
  rewrite Hx. exact IH.
Qed.

Lemma trim_blank s : trim s = [] <-> Scenario.blank s.
Proof.
  split.
  - intros E. destruct (trim_split s) as (before & after & Es & Hb & Ha).
    rewrite E in Es. rewrite Es. apply Forall_app. auto.
  - intros Hb. unfold trim. rewrite (trimStart_blank s Hb). reflexivity.
Qed.

(* ===================================================================== *)
(** ** More on the login route *)
(* ===================================================================== *)

Lemma bind_inv {A B} (m : M A) (k : A -> M B) w b w' :
  bind m k w = (Return b, w') ->
  exists a w1, m w = (Return a, w1) /\ k a w1 = (Return b, w').
Proof.
  unfold bind. destruct (m w) as [[a|e] w1]; [|discriminate].
  intros E. exists a, w1. auto.
Qed.

(** X1.  The code that the login route hands on is the submitted string
    without the white space at its two ends: it is not empty, has no white
    space at either end, and the submitted string is that code between two
    runs of white space. *)
Theorem login_code_is_trimmed (request : NextRequest) (code : jsstring) :
  orElse (request_json request) Login.bodySchema_parse = inr code ->
  code <> [] /\ Scenario.clean code /\
  exists fields s before after,
    requestBody request = Json (VObject fields) /\
    getField (lit "code") fields = Some (VString s) /\
    s = before ++ code ++ after /\
    Scenario.blank before /\ Scenario.blank after.
Proof.
  unfold orElse, request_json, Login.bodySchema_parse.
  destruct (requestBody request) as [|v]; [discriminate|].
  destruct v as [| | | | |fields]; try discriminate.
  destruct (getField (lit "code") fields) as [[| | |s| |]|] eqn:Hget;
    try discriminate.
  destruct (trim s) as [|c t] eqn:E; [discriminate|].
  simpl. intros [= <-]. split; [discriminate|].
  split; [rewrite <- E; apply trim_clean|].
  destruct (trim_split s) as (before & after & Es & Hb & Ha).
  exists fields, s, before, after. rewrite <- E.
  repeat split; solve [auto | exact Hget].
Qed.

Lemma login_code_is_trimmed_witness :
  let request := Fixture.login (lit "  123 456 ") in
  orElse (request_json request) Login.bodySchema_parse
  = inr (lit "123 456") /\
  lit "123 456" <> [] /\ Scenario.clean (lit "123 456").
Proof.
  intros request.
  assert (Hparse : orElse (request_json request) Login.bodySchema_parse
                   = inr (lit "123 456")) by reflexivity.
  split; [exact Hparse|].
  destruct (login_code_is_trimmed request (lit "123 456") Hparse)
    as (Hne & Hclean & _).
  split; [exact Hne | exact Hclean].
Defined.

Lemma setSessionCookie_inv {P : Platform} response w updated w' :
  Session.setSessionCookie response w = (Return updated, w') ->
  exists cookie,
    updated = cookies_set response cookie /\
    name cookie = Session.SESSION_COOKIE /\ httpOnly cookie = true.
Proof.
  unfold Session.setSessionCookie. intros Hrun.
  apply bind_inv in Hrun. destruct Hrun as (token & w1 & _ & Hrun).
  apply bind_inv in Hrun. destruct Hrun as (env & w2 & _ & Hrun).
  injection Hrun as <- _. eexists. split; [reflexivity|]. split; reflexivity.
Qed.

(** X2.  The four answers of the login route.  Whatever the platform and
    the state of the world, a login that is answered at all is answered
    400 for a malformed payload (the world untouched), 423 with a status
    that is locked, 401 with a status that is not locked, or 200; the
    session cookie is set on the 200 answer and on no other. *)
Theorem login_answers {P : Platform} (request : NextRequest) (w w' : World)
        (response : NextResponse) :
  Login.POST request w = (Return response, w') ->
  (status response = 400 /\ Spec.malformed request /\ w' = w /\
   setCookies response = []) \/
  (status response = 423 /\ setCookies response = [] /\
   exists s, body response = ErrorBody Login.tooMany (Some s) /\
             Types.isLocked s = true) \/
  (status response = 401 /\ setCookies response = [] /\
   exists s, body response
             = ErrorBody (lit "Invalid authenticator code") (Some s) /\
             Types.isLocked s = false) \/
  (status response = 200 /\ body response = SuccessBody /\
   exists cookie, setCookies response = [cookie] /\
                  name cookie = Session.SESSION_COOKIE /\
                  httpOnly cookie = true).
Proof.
  unfold Login.POST.
  destruct (orElse (request_json request) Login.bodySchema_parse)
    as [e|code] eqn:Hparse.
  - intros [= <- <-]. left. repeat split.
    apply (parse_malformed request e Hparse).
  - intros Hrun. right.
    apply bind_inv in Hrun. destruct Hrun as (current & w1 & _ & Hrun).
    destruct (Types.isLocked current) eqn:Hlocked.
    + injection Hrun as <- _. left.
      split; [reflexivity|]. split; [reflexivity|].
      exists current. split; [reflexivity|exact Hlocked].
    + apply bind_inv in Hrun. destruct Hrun as (valid & w2 & _ & Hrun).
      destruct valid; simpl in Hrun.
      * apply bind_inv in Hrun. destruct Hrun as (_ & w3 & _ & Hrun).
        apply setSessionCookie_inv in Hrun.
        destruct Hrun as (cookie & -> & Hname & Hhttp).
        right. right. split; [reflexivity|]. split; [reflexivity|].
        exists cookie. split; [reflexivity|]. split; assumption.
      * apply bind_inv in Hrun. destruct Hrun as (lockout & w3 & _ & Hrun).
        injection Hrun as <- _.
        destruct (Types.isLocked lockout) eqn:Hl.
        -- left. split; [reflexivity|]. split; [reflexivity|].
           exists lockout. split; [reflexivity|exact Hl].
        -- right. left. split; [reflexivity|]. split; [reflexivity|].
           exists lockout. split; [reflexivity|exact Hl].
Qed.

Lemma login_answers_witness :
  let request := Fixture.login (lit "123456") in
  let w := Fixture.world None 1000 in
  exists response w',
    @Login.POST Fixture.platform request w = (Return response, w') /\
    status response = 200 /\
    List.length (setCookies response) = 1%nat.
Proof.
  intros request w.
  destruct (@Login.POST Fixture.platform request w) as [[response|e] w']
    eqn:Hrun; [|vm_compute in Hrun; discriminate].
  exists response, w'. split; [reflexivity|].
  destruct (login_answers (P := Fixture.platform) request w w' response Hrun)
    as [(H400 & _)|[(H423 & _)|[(H401 & _)|(H200 & _ & cookie & -> & _)]]].
  - vm_compute in Hrun. injection Hrun as <- _. discriminate.
  - vm_compute in Hrun. injection Hrun as <- _. discriminate.
  - vm_compute in Hrun. injection Hrun as <- _. discriminate.
  - split; [exact H200|reflexivity].
Defined.

(* ===================================================================== *)
(** ** More on the configuration *)
(* ===================================================================== *)

Lemma required_inr value text :
  required value = inr text <-> value = Some text /\ isBlank value = false.
Proof.
  unfold required. destruct value as [v|].
  - destruct (isBlank (Some v)); split.
    + discriminate.
    + intros [_ H]. discriminate.
    + intros [= <-]. auto.
    + intros [[= <-] _]. reflexivity.
  - split; [discriminate|]. intros [H _]. discriminate.
Qed.

Lemma optionalNumber_inr toNumber value d m n :
  optionalNumber toNumber value d m = inr n <->
  (isBlank value = true /\ n = d) \/
  (exists text, value = Some text /\ isBlank value = false /\
                toNumber text = Some n /\ m <= n).
Proof.
  unfold optionalNumber. destruct value as [v|].
  - destruct (isBlank (Some v)) eqn:Hb.
    + split.
      * intros [= <-]. left. auto.
      * intros [[_ ->]|(text & _ & H & _)]; [reflexivity|discriminate].
    + destruct (toNumber v) as [parsed|] eqn:Hn.
      * destruct (Z.ltb_spec parsed m); split.
        -- discriminate.
        -- intros [[H0 _]|(text & [= <-] & _ & Hp & Hm)]; [discriminate|].
           rewrite Hn in Hp. injection Hp as <-. lia.
        -- intros [= <-]. right. exists v. auto.
        -- intros [[H0 _]|(text & [= <-] & _ & Hp & Hm)]; [discriminate|].
           congruence.
      * split; [discriminate|].
        intros [[H0 _]|(text & [= <-] & _ & Hp & _)]; congruence.
  - split.
    + intros [= <-]. left. auto.
    + intros [[_ ->]|(text & H & _)]; [reflexivity|discriminate].
Qed.

Lemma optionalNumber_accepts toNumber value d m :
  (exists n, optionalNumber toNumber value d m = inr n) <->
  Scenario.numericSetting toNumber value m.
Proof.
  split.
  - intros (n & H). apply optionalNumber_inr in H.
    destruct H as [[Hb _]|(text & Hv & _ & Hn & Hm)].
    + left. exact Hb.
    + right. exists text, n. auto.
  - intros [Hb|(text & n & Hv & Hn & Hm)].
    + exists d. apply optionalNumber_inr. left. auto.
    + destruct (isBlank value) eqn:Hb.
      * exists d. apply optionalNumber_inr. left. auto.
      * exists n. apply optionalNumber_inr. right. exists text. auto.
Qed.

Lemma optionalString_value value d :
  optionalString value d = if isBlank value then d
                           else match value with Some v => v | None => d end.
Proof. unfold optionalString. destruct value; reflexivity. Qed.

(** X3.  When [getEnv] succeeds.  The configuration loads exactly when
    the connection string, the TOTP secret and the session secret are set
    and not blank, the session secret has at least 32 code units, and each
    of the four numeric settings is unset, blank, or a number that is at
    least 1; otherwise [getEnv] throws. *)
Theorem getEnv_accepts_iff (toNumber : jsstring -> option Z)
        (p : ProcessEnv) :
  (exists env, getEnv toNumber p = inr env) <->
  isBlank (AZURE_STORAGE_CONNECTION_STRING p) = false /\
  isBlank (TOTP_SECRET_BASE32 p) = false /\
  (exists secret, SESSION_SECRET p = Some secret /\
                  isBlank (Some secret) = false /\
                  (32 <= List.length secret)%nat) /\
  Scenario.numericSetting toNumber (SESSION_TTL_HOURS p) 1 /\
  Scenario.numericSetting toNumber (AUTH_MAX_ATTEMPTS p) 1 /\
  Scenario.numericSetting toNumber (AUTH_LOCK_MINUTES p) 1 /\
  Scenario.numericSetting toNumber (MAX_UPLOAD_MB p) 1.
Proof.
  unfold getEnv, orElse. split.
  - intros (env & H).
    destruct (required (AZURE_STORAGE_CONNECTION_STRING p)) as [|conn] eqn:Hc;
      [discriminate|].
    destruct (required (TOTP_SECRET_BASE32 p)) as [|totp] eqn:Ht;
      [discriminate|].
    destruct (required (SESSION_SECRET p)) as [|secret] eqn:Hs;
      [discriminate|].
    destruct (optionalNumber toNumber (SESSION_TTL_HOURS p) 12 1)
      as [|ttl] eqn:H1; [discriminate|].
    destruct (optionalNumber toNumber (AUTH_MAX_ATTEMPTS p) 10 1)
      as [|att] eqn:H2; [discriminate|].
    destruct (optionalNumber toNumber (AUTH_LOCK_MINUTES p) 30 1)
      as [|mins] eqn:H3; [discriminate|].
    destruct (optionalNumber toNumber (MAX_UPLOAD_MB p) 20 1)
      as [|up] eqn:H4; [discriminate|].
    destruct (Nat.ltb_spec (List.length secret) 32); [discriminate|].
    apply required_inr in Hc, Ht, Hs. destruct Hs as [Hs Hsb].
    split; [apply Hc|]. split; [apply Ht|]. split.
    { exists secret. rewrite <- Hs. auto. }
    split; [|split; [|split]].
    + apply (optionalNumber_accepts toNumber _ 12). eauto.
    + apply (optionalNumber_accepts toNumber _ 10). eauto.
    + apply (optionalNumber_accepts toNumber _ 30). eauto.
    + apply (optionalNumber_accepts toNumber _ 20). eauto.
  - intros (Hc & Ht & (secret & Hs & Hsb & Hlen) & H1 & H2 & H3 & H4).
    destruct (AZURE_STORAGE_CONNECTION_STRING p) as [conn|] eqn:Ec;
      [|discriminate].
    destruct (TOTP_SECRET_BASE32 p) as [totp|] eqn:Et; [|discriminate].
    rewrite Hs. unfold required. rewrite Hc, Ht, Hsb.
    apply optionalNumber_accepts with (d := 12) in H1. destruct H1 as (ttl & ->).
    apply optionalNumber_accepts with (d := 10) in H2. destruct H2 as (att & ->).
    apply optionalNumber_accepts with (d := 30) in H3. destruct H3 as (mins & ->).
    apply optionalNumber_accepts with (d := 20) in H4. destruct H4 as (up & ->).
    destruct (Nat.ltb_spec (List.length secret) 32); [lia|].
    eexists. reflexivity.
Qed.

(** X4.  What a loaded configuration holds.  The three required values
    are the variables as they are set (not trimmed); the session secret
    has at least 32 code units; every numeric setting is at least 1, and
    is the default (12 hours, 10 attempts, 30 minutes, 20 MB) when its
    variable is unset or blank, the variable's number otherwise; a name
    that is unset or blank is its default. *)
Theorem getEnv_values (toNumber : jsstring -> option Z) (p : ProcessEnv)
        (env : AppEnv) :
  getEnv toNumber p = inr env ->
  (AZURE_STORAGE_CONNECTION_STRING p = Some (azureStorageConnectionString env) /\
   TOTP_SECRET_BASE32 p = Some (totpSecretBase32 env) /\
   SESSION_SECRET p = Some (sessionSecret env) /\
   (32 <= List.length (sessionSecret env))%nat) /\
  (1 <= sessionTtlHours env /\ 1 <= authMaxAttempts env /\
   1 <= authLockMinutes env /\ 1 <= maxUploadMb env) /\
  (optionalNumber toNumber (SESSION_TTL_HOURS p) 12 1
   = inr (sessionTtlHours env) /\
   optionalNumber toNumber (AUTH_MAX_ATTEMPTS p) 10 1
   = inr (authMaxAttempts env) /\
   optionalNumber toNumber (AUTH_LOCK_MINUTES p) 30 1
   = inr (authLockMinutes env) /\
   optionalNumber toNumber (MAX_UPLOAD_MB p) 20 1 = inr (maxUploadMb env)) /\
  (isBlank (SESSION_TTL_HOURS p) = true -> sessionTtlHours env = 12) /\
  (isBlank (AUTH_MAX_ATTEMPTS p) = true -> authMaxAttempts env = 10) /\
  (isBlank (AUTH_LOCK_MINUTES p) = true -> authLockMinutes env = 30) /\
  (isBlank (MAX_UPLOAD_MB p) = true -> maxUploadMb env = 20) /\
  (isBlank (AZURE_BLOB_CONTAINER p) = true ->
   blobContainer env = lit "privy-files") /\
  (isBlank (AZURE_ITEMS_TABLE p) = true -> itemsTable env = lit "PrivyItems") /\
  (isBlank (AZURE_AUTH_TABLE p) = true -> authTable env = lit "PrivyAuth") /\
  (isBlank (TOTP_ISSUER p) = true -> totpIssuer env = lit "Privy Share") /\
  (isBlank (TOTP_ACCOUNT_NAME p) = true -> totpAccountName env = lit "owner").
Proof.
  unfold getEnv, orElse.
  destruct (required (AZURE_STORAGE_CONNECTION_STRING p)) as [|conn] eqn:Hc;
    [discriminate|].
  destruct (required (TOTP_SECRET_BASE32 p)) as [|totp] eqn:Ht;
    [discriminate|].
  destruct (required (SESSION_SECRET p)) as [|secret] eqn:Hs;
    [discriminate|].
  destruct (optionalNumber toNumber (SESSION_TTL_HOURS p) 12 1)
    as [|ttl] eqn:H1; [discriminate|].
  destruct (optionalNumber toNumber (AUTH_MAX_ATTEMPTS p) 10 1)
    as [|att] eqn:H2; [discriminate|].
  destruct (optionalNumber toNumber (AUTH_LOCK_MINUTES p) 30 1)
    as [|mins] eqn:H3; [discriminate|].
  destruct (optionalNumber toNumber (MAX_UPLOAD_MB p) 20 1)
    as [|up] eqn:H4; [discriminate|].
  destruct (Nat.ltb_spec (List.length secret) 32); [discriminate|].
  intros [= <-]. cbn [azureStorageConnectionString blobContainer itemsTable
    authTable totpSecretBase32 totpIssuer totpAccountName sessionSecret
    sessionTtlHours authMaxAttempts authLockMinutes maxUploadMb].
  apply required_inr in Hc, Ht, Hs.
  pose proof (optionalNumber_minimum toNumber _ 12 1 _ ltac:(lia) H1).
  pose proof (optionalNumber_minimum toNumber _ 10 1 _ ltac:(lia) H2).
  pose proof (optionalNumber_minimum toNumber _ 30 1 _ ltac:(lia) H3).
  pose proof (optionalNumber_minimum toNumber _ 20 1 _ ltac:(lia) H4).
  split; [repeat split; solve [apply Hc | apply Ht | apply Hs | assumption]|].
  split; [repeat split; assumption|].
  split; [repeat split; reflexivity|].
  repeat split; intros Hb;
    try (rewrite optionalString_value, Hb; reflexivity).
  - apply optionalNumber_inr in H1.
    destruct H1 as [[_ ->]|(text & _ & Hn & _)]; congruence.
  - apply optionalNumber_inr in H2.
    destruct H2 as [[_ ->]|(text & _ & Hn & _)]; congruence.
  - apply optionalNumber_inr in H3.
    destruct H3 as [[_ ->]|(text & _ & Hn & _)]; congruence.
  - apply optionalNumber_inr in H4.
    destruct H4 as [[_ ->]|(text & _ & Hn & _)]; congruence.
Qed.

Lemma getEnv_values_witness :
  getEnv (@ToNumber Fixture.platform) (@processEnv Fixture.platform)
  = inr Fixture.env /\
  (1 <= sessionTtlHours Fixture.env /\ 1 <= authMaxAttempts Fixture.env /\
   1 <= authLockMinutes Fixture.env /\ 1 <= maxUploadMb Fixture.env).
Proof.
  split; [reflexivity|].
  destruct (getEnv_values (@ToNumber Fixture.platform)
              (@processEnv Fixture.platform) Fixture.env eq_refl)
    as (_ & Hbounds & _).
  exact Hbounds.
Defined.

(* ===================================================================== *)
(** ** More on the lockout record *)
(* ===================================================================== *)

Section Faults.

Context {P : Platform}.
Variable env : AppEnv.
Hypothesis Henv : getEnv ToNumber processEnv = inr env.

Lemma initializeStorage_fault w e :
  storageFault w = Some e -> initializeStorage w = (Throw e, w).
Proof.
  intros Hf. unfold initializeStorage.
  erewrite bind_ok by (apply loadEnv_run; exact Henv).
  rewrite Hf. reflexivity.
Qed.

Lemma getEntity_fault w e :
  storageFault w = Some e -> Lockout.getEntity w = (Throw e, w).
Proof.
  intros Hf. unfold Lockout.getEntity.
  apply bind_throw, initializeStorage_fault, Hf.
Qed.

Lemma getLockoutStatus_fault w e :
  storageFault w = Some e -> Lockout.getLockoutStatus w = (Throw e, w).
Proof.
  intros Hf. unfold Lockout.getLockoutStatus.
  apply bind_throw, getEntity_fault, Hf.
Qed.

End Faults.

(** X5.  A storage account that fails.  [initializeStorage] is awaited
    outside the [try] of [getEntity], so its failure, whatever it looks
    like (a 404 included), is rethrown to the caller: the status query,
    [recordFailedAttempt] and a login with a well-formed payload all end
    with that error in an unchanged world (no default record is created,
    the one-time-password library is not called); [resetFailedAttempts]
    has by then read the clock, and nothing else. *)
Theorem storage_fault_is_rethrown {P : Platform} (env : AppEnv) (w : World)
        (e : thrown) (request : NextRequest) (code : jsstring) :
  getEnv ToNumber processEnv = inr env ->
  storageFault w = Some e ->
  orElse (request_json request) Login.bodySchema_parse = inr code ->
  Lockout.getLockoutStatus w = (Throw e, w) /\
  Lockout.recordFailedAttempt w = (Throw e, w) /\
  Lockout.resetFailedAttempts w = (Throw e, tick w) /\
  Login.POST request w = (Throw e, w).
Proof.
  intros Henv Hf Hparse.
  split; [apply (getLockoutStatus_fault env Henv), Hf|].
  split.
  { unfold Lockout.recordFailedAttempt.
    erewrite bind_ok by (apply loadEnv_run; exact Henv).
    apply bind_throw, (getEntity_fault env Henv), Hf. }
  split.
  { unfold Lockout.resetFailedAttempts.
    erewrite bind_ok by apply Date_now_run.
    unfold Lockout.saveEntity.
    apply bind_throw, (initializeStorage_fault env Henv). exact Hf. }
  unfold Login.POST. rewrite Hparse.
  apply bind_throw, (getLockoutStatus_fault env Henv), Hf.
Qed.

Lemma storage_fault_is_rethrown_witness :
  let e := ThrownObject (Some 404) (Some (lit "ResourceNotFound")) in
  let w := {| authRow := None; storageFault := Some e;
              clock := fun _ => 1000; ticks := 0; tableReads := 0;
              tableWrites := []; otpCalls := [] |} in
  let request := Fixture.login (lit "123456") in
  (getEnv (@ToNumber Fixture.platform) (@processEnv Fixture.platform)
   = inr Fixture.env /\
   storageFault w = Some e /\
   orElse (request_json request) Login.bodySchema_parse
   = inr (lit "123456")) /\
  @Login.POST Fixture.platform request w = (Throw e, w).
Proof.
  intros e w request. split; [repeat split|].
  apply (storage_fault_is_rethrown (P := Fixture.platform) Fixture.env w e
           request (lit "123456") eq_refl eq_refl eq_refl).
Defined.

(** X6.  The first read creates the record.  On a healthy store without
    a record, the status query writes the zero record, stamped with the
    clock, once; it reports no failed attempts and no lock; and the query
    after it finds that record and writes nothing. *)
Theorem first_query_creates_zero_record {P : Platform} (env : AppEnv)
        (w : World) :
  getEnv ToNumber processEnv = inr env ->
  storageFault w = None ->
  authRow w = None ->
  exists status w',
    Lockout.getLockoutStatus w = (Return status, w') /\
    let zero := Lockout.asRow (Spec.zeroEntity (clock w (ticks w))) in
    authRow w' = Some zero /\
    tableWrites w' = zero :: tableWrites w /\
    tableReads w' = S (tableReads w) /\
    Types.failedAttempts status = 0 /\
    Types.lockUntilEpochMs status = 0 /\
    Types.maxAttempts status = authMaxAttempts env /\
    (0 <= clock w (S (ticks w)) ->
     Types.isLocked status = false /\ Types.retryAfterSeconds status = 0) /\
    exists status2 w'',
      Lockout.getLockoutStatus w' = (Return status2, w'') /\
      authRow w'' = Some zero /\
      tableWrites w'' = tableWrites w'.
Proof.
  intros Henv Hf Hrow.
  rewrite (getLockoutStatus_run env Henv w Hf).
  eexists _, _. split; [reflexivity|].
  assert (Hafter : Spec.afterRead w
                   = stored (Lockout.asRow (Spec.zeroEntity (clock w (ticks w))))
                            (tick (countRead w))).
  { unfold Spec.afterRead, Spec.readEntity. rewrite Hrow. reflexivity. }
  cbv zeta. rewrite Hafter. cbn [authRow tableWrites tableReads tick stored countRead].
  split; [reflexivity|]. split; [reflexivity|]. split; [reflexivity|].
  rewrite statusAt_computeStatus.
  unfold Spec.readEntity. rewrite Hrow.
  cbn [Spec.counters fst snd Lockout.failedAttempts Lockout.lockUntilEpochMs
       Spec.computeStatus Types.failedAttempts Types.lockUntilEpochMs
       Types.maxAttempts].
  split; [reflexivity|]. split; [reflexivity|]. split; [reflexivity|].
  split.
  - intros Hnow.
    assert (Hn : Spec.nowAfterRead w = clock w (S (ticks w))).
    { unfold Spec.nowAfterRead. rewrite Hrow. simpl. f_equal. lia. }
    rewrite Hn, isLocked_computeStatus. split; [apply Z.ltb_ge; lia|].
    pose proof (ceilDiv_bounds (0 - clock w (S (ticks w)))) as Hb.
    unfold Spec.computeStatus. cbn [Types.retryAfterSeconds]. lia.
  - set (w1 := tick (stored _ _)).
    assert (Hf1 : storageFault w1 = None) by exact Hf.
    rewrite (getLockoutStatus_run env Henv w1 Hf1).
    eexists _, _. split; [reflexivity|].
    destruct (afterRead_present w1 _ eq_refl) as [H1 H2].
    split; [exact H1 | exact H2].
Qed.

Lemma first_query_creates_zero_record_witness :
  let w := Fixture.world None 1000 in
  (getEnv (@ToNumber Fixture.platform) (@processEnv Fixture.platform)
   = inr Fixture.env /\
   storageFault w = None /\ authRow w = None) /\
  exists status w',
    @Lockout.getLockoutStatus Fixture.platform w = (Return status, w') /\
    List.length (tableWrites w') = 1%nat.
Proof.
  intros w. split; [repeat split|].
  destruct (first_query_creates_zero_record (P := Fixture.platform)
              Fixture.env w eq_refl eq_refl eq_refl)
    as (status & w' & Hrun & _ & Hwrites & _).
  exists status, w'. split; [exact Hrun|]. rewrite Hwrites. reflexivity.
Defined.

(** X7.  A failed attempt that arrives during a lock.  When the record
    read is locked at the function's reading of the clock,
    [recordFailedAttempt] counts nothing: the counters stay, a record that
    exists is not written, the one-time-password library is not involved,
    and the answer is the status of the unchanged record at the next
    reading of the clock - still locked if the lock has not run out in
    between. *)
Theorem recordFailedAttempt_while_locked {P : Platform} (env : AppEnv)
        (w : World) :
  getEnv ToNumber processEnv = inr env ->
  storageFault w = None ->
  Spec.nowAfterRead w < snd (Spec.counters (authRow w)) ->
  let again := clock w (S (ticks w + Spec.entityClockReads (authRow w))) in
  exists status w',
    Lockout.recordFailedAttempt w = (Return status, w') /\
    Spec.counters (authRow w') = Spec.counters (authRow w) /\
    (forall row, authRow w = Some row ->
                 authRow w' = Some row /\ tableWrites w' = tableWrites w) /\
    otpCalls w' = otpCalls w /\
    status = Spec.computeStatus (fst (Spec.counters (authRow w)))
                                (snd (Spec.counters (authRow w)))
                                again (authMaxAttempts env) /\
    (again < snd (Spec.counters (authRow w)) ->
     Types.isLocked status = true /\ 0 < Types.retryAfterSeconds status).
Proof.
  intros Henv Hf Hlock again.
  pose proof (recordFailedAttempt_locked_run env Henv w Hf Hlock) as Hrun.
  cbv zeta in Hrun. rewrite Hrun. eexists _, _. split; [reflexivity|].
  cbn [authRow tableWrites otpCalls tick].
  split; [apply counters_afterRead|].
  split; [intros row Hrow; apply afterRead_present, Hrow|].
  split; [apply otpCalls_afterRead|].
  assert (Hagain : clock (tick (Spec.afterRead w))
                         (ticks (tick (Spec.afterRead w))) = again).
  { cbn [clock ticks tick]. rewrite clock_afterRead, ticks_afterRead.
    reflexivity. }
  rewrite Hagain, statusAt_computeStatus.
  split; [reflexivity|]. intros Hstill.
  rewrite isLocked_computeStatus. split.
  - apply Z.ltb_lt. exact Hstill.
  - apply retry_computeStatus_pos. exact Hstill.
Qed.

Lemma recordFailedAttempt_while_locked_witness :
  let w := Fixture.world (Some (Fixture.record 0 9000)) 1000 in
  (getEnv (@ToNumber Fixture.platform) (@processEnv Fixture.platform)
   = inr Fixture.env /\
   storageFault w = None /\
   Spec.nowAfterRead w < snd (Spec.counters (authRow w))) /\
  exists status w',
    @Lockout.recordFailedAttempt Fixture.platform w = (Return status, w') /\
    Spec.counters (authRow w') = (0, 9000) /\
    Types.retryAfterSeconds status = 8.
Proof.
  intros w.
  assert (Hlock : Spec.nowAfterRead w < snd (Spec.counters (authRow w)))
    by reflexivity.
  split; [repeat split|].
  destruct (recordFailedAttempt_while_locked (P := Fixture.platform)
              Fixture.env w eq_refl eq_refl Hlock)
    as (status & w' & Hrun & Hc & _ & _ & Hs & _).
  exists status, w'. split; [exact Hrun|]. split; [exact Hc|].
  rewrite Hs. reflexivity.
Defined.

Lemma cons_neq {A} (x : A) l : x :: l <> l.
Proof.
  intros E. apply (f_equal (@List.length A)) in E. simpl in E. lia.
Qed.

(** X8.  The two gates are one.  The login route asks [isLocked] of the
    status ([retryAfterSeconds > 0], a ceiling of seconds);
    [recordFailedAttempt] compares milliseconds ([lockUntilEpochMs >
    now]).  At one reading [t] of the clock they agree: for a stored
    record the status is locked exactly when [t] is before [lockUntil],
    which is exactly when [recordFailedAttempt] writes nothing, and then
    it reports that same status. *)
Theorem lock_gates_agree {P : Platform} (env : AppEnv) (w : World)
        (row : TableEntity) (t : Z) :
  getEnv ToNumber processEnv = inr env ->
  storageFault w = None ->
  authRow w = Some row ->
  Spec.frozen t w ->
  exists status w1 reported w2,
    Lockout.getLockoutStatus w = (Return status, w1) /\
    Lockout.recordFailedAttempt w = (Return reported, w2) /\
    (Types.isLocked status = true <->
     t < Lockout.orZero (rowLockUntilEpochMs row)) /\
    (Types.isLocked status = true <-> tableWrites w2 = tableWrites w) /\
    (Types.isLocked status = true -> reported = status).
Proof.
  intros Henv Hf Hrow Ht.
  rewrite (getLockoutStatus_run env Henv w Hf).
  assert (Hnow : Spec.nowAfterRead w = t) by apply Ht.
  assert (Hl : snd (Spec.counters (authRow w))
               = Lockout.orZero (rowLockUntilEpochMs row))
    by (rewrite Hrow; reflexivity).
  assert (Hgate : Types.isLocked
                    (Lockout.statusAt (Spec.readEntity w)
                                      (Spec.nowAfterRead w) env) = true
                  <-> t < Lockout.orZero (rowLockUntilEpochMs row)).
  { rewrite statusAt_computeStatus, isLocked_computeStatus, Hnow.
    cbn [Spec.readEntity Lockout.lockUntilEpochMs]. rewrite Hl.
    apply Z.ltb_lt. }
  destruct (Z.lt_ge_cases t (Lockout.orZero (rowLockUntilEpochMs row)))
    as [Hlocked|Hopen].
  - assert (H1 : Spec.nowAfterRead w < snd (Spec.counters (authRow w)))
      by lia.
    pose proof (recordFailedAttempt_locked_run env Henv w Hf H1) as Hrun.
    cbv zeta in Hrun. rewrite Hrun.
    eexists _, _, _, _. split; [reflexivity|]. split; [reflexivity|].
    split; [exact Hgate|]. split.
    + split; [|intros _; apply Hgate, Hlocked].
      intros _. cbn [tableWrites tick].
      apply (afterRead_present w row Hrow).
    + intros _. f_equal. rewrite Hnow. cbn [clock tick].
      rewrite clock_afterRead. apply Ht.
  - assert (H1 : snd (Spec.counters (authRow w)) <= Spec.nowAfterRead w)
      by lia.
    pose proof (recordFailedAttempt_open_run env Henv w Hf H1) as Hrun.
    cbv zeta in Hrun. rewrite Hrun.
    eexists _, _, _, _. split; [reflexivity|]. split; [reflexivity|].
    split; [exact Hgate|]. split.
    + split; [intros Hl1; apply Hgate in Hl1; lia|].
      cbn [tableWrites tick stored].
      destruct (afterRead_present w row Hrow) as [_ ->].
      intros E. exfalso. exact (cons_neq _ _ E).
    + intros Hl1. apply Hgate in Hl1. lia.
Qed.

Lemma lock_gates_agree_witness :
  let row := Fixture.record 2 9000 in
  let w := Fixture.world (Some row) 1000 in
  (getEnv (@ToNumber Fixture.platform) (@processEnv Fixture.platform)
   = inr Fixture.env /\
   storageFault w = None /\ authRow w = Some row /\ Spec.frozen 1000 w) /\
  exists status w1,
    @Lockout.getLockoutStatus Fixture.platform w = (Return status, w1) /\
    Types.isLocked status = true.
Proof.
  intros row w.
  assert (Ht : Spec.frozen 1000 w) by (intros i; reflexivity).
  split; [repeat split; exact Ht|].
  destruct (lock_gates_agree (P := Fixture.platform) Fixture.env w row 1000
              eq_refl eq_refl eq_refl Ht)
    as (status & w1 & reported & w2 & Hrun & _ & Hgate & _).
  exists status, w1. split; [exact Hrun|]. apply Hgate. reflexivity.
Defined.

(* ===================================================================== *)
(** ** Guessing against the lockout *)
(* ===================================================================== *)

Lemma verifyTotpCode_calls {P : Platform} code w :
  (List.length (otpCalls (snd (Totp.verifyTotpCode code w)))
   <= S (List.length (otpCalls w)))%nat.
Proof.
  unfold Totp.verifyTotpCode, bind, loadEnv, otp_verifySync, ret.
  destruct (negb (isSixDigits (trim (stripWhiteSpace code)))); simpl; [lia|].
  destruct (getEnv ToNumber processEnv); simpl; [lia|].
  destruct (otpVerify _ _ _); simpl; lia.
Qed.

Section Guessing.

Context {P : Platform}.
Variable env : AppEnv.
Hypothesis Henv : getEnv ToNumber processEnv = inr env.
Variable t : Z.
Hypothesis Ht : 0 <= t.
Variable request : NextRequest.
Variable code : jsstring.
Hypothesis Hparse :
  orElse (request_json request) Login.bodySchema_parse = inr code.
Hypothesis Hcode : Spec.invalidCode env code t.
Variable base : nat.

(** The state after [j] invalid logins at a clock that stands at [t]. *)
Local Abbreviation after j w :=
  (storageFault w = None /\ Spec.frozen t w /\
   Spec.counters (authRow w)
   = (if Z.of_nat j <? authMaxAttempts env then (Z.of_nat j, 0)
      else (0, t + authLockMinutes env * 60 * 1000)) /\
   le (List.length (otpCalls w))
      (Nat.add base (Nat.min j (Z.to_nat (authMaxAttempts env))))).

Lemma frozen_now w : Spec.frozen t w -> Spec.nowAfterRead w = t.
Proof. intros H. apply H. Qed.

Lemma invalid_login_step j w :
  after j w ->
  exists response w1,
    Login.POST request w = (Return response, w1) /\
    status response
    = (if Z.of_nat (S j) <? authMaxAttempts env then 401 else 423) /\
    after (S j) w1.
Proof.
  intros (Hf & Hfrozen & Hc & Hcalls).
  pose proof (getEnv_minimums _ _ _ Henv) as (_ & Hmax & Hmin).
  destruct (Z.ltb_spec (Z.of_nat j) (authMaxAttempts env)) as [Hroom|Hfull].
  - (* not locked: the attempt is counted *)
    assert (Hopen : snd (Spec.counters (authRow w)) <= Spec.nowAfterRead w).
    { rewrite Hc, (frozen_now w Hfrozen). simpl. exact Ht. }
    unfold Login.POST. rewrite Hparse.
    erewrite bind_ok by (apply (getLockoutStatus_run env Henv); exact Hf).
    rewrite statusAt_computeStatus, isLocked_computeStatus.
    cbn [Lockout.lockUntilEpochMs Spec.readEntity].
    destruct (Z.ltb_spec (Spec.nowAfterRead w)
                         (snd (Spec.counters (authRow w)))); [lia|].
    pose proof (verifyTotpCode_calls code (tick (Spec.afterRead w))) as Hn.
    destruct (verifyTotpCode_invalid_run env Henv code (tick (Spec.afterRead w)))
      as (w2 & Hrun & Hrow2 & Hf2 & Hclock2 & Hwrites2 & Hticks2).
    { cbn [clock ticks tick]. rewrite clock_afterRead. rewrite Hfrozen.
      exact Hcode. }
    rewrite Hrun in Hn. cbn [snd otpCalls tick] in Hn.
    rewrite otpCalls_afterRead in Hn.
    erewrite bind_ok by exact Hrun. cbn [negb].
    cbn [authRow storageFault clock tick] in Hrow2, Hf2, Hclock2.
    rewrite storageFault_afterRead in Hf2. rewrite Hf in Hf2.
    rewrite clock_afterRead in Hclock2.
    assert (Hfrozen2 : Spec.frozen t w2)
      by (intros i; rewrite Hclock2; apply Hfrozen).
    assert (Hc2 : Spec.counters (authRow w2) = (Z.of_nat j, 0))
      by (rewrite Hrow2, counters_afterRead; exact Hc).
    assert (Hopen2 : snd (Spec.counters (authRow w2)) <= Spec.nowAfterRead w2).
    { rewrite Hc2, (frozen_now w2 Hfrozen2). simpl. exact Ht. }
    pose proof (recordFailedAttempt_open_run env Henv w2 Hf2 Hopen2) as Hrec.
    cbv zeta in Hrec. erewrite bind_ok by exact Hrec.
    eexists _, _. split; [reflexivity|].
    rewrite statusAt_computeStatus, isLocked_computeStatus.
    unfold Spec.attemptEntity, Spec.readEntity. rewrite Hc2.
    cbn [fst snd Lockout.failedAttempts Lockout.lockUntilEpochMs
         clock ticks tick stored authRow storageFault otpCalls status json].
    rewrite ?clock_afterRead, ?otpCalls_afterRead, ?storageFault_afterRead.
    rewrite (Hfrozen2 _), (frozen_now w2 Hfrozen2).
    replace (Z.of_nat (S j)) with (Z.of_nat j + 1) by lia.
    destruct (Z.leb_spec (authMaxAttempts env) (Z.of_nat j + 1)) as [Hl|Hl];
      destruct (Z.ltb_spec (Z.of_nat j + 1) (authMaxAttempts env));
      try lia.
    + destruct (Z.ltb_spec t (t + authLockMinutes env * 60 * 1000)); [|lia].
      split; [reflexivity|]. split; [exact Hf2|].
      split; [intros i; cbn [clock tick stored]; rewrite clock_afterRead;
              apply Hfrozen2|].
      split; [reflexivity|]. lia.
    + destruct (Z.ltb_spec t 0); [lia|].
      split; [reflexivity|]. split; [exact Hf2|].
      split; [intros i; cbn [clock tick stored]; rewrite clock_afterRead;
              apply Hfrozen2|].
      split; [reflexivity|]. lia.
  - (* locked: the login is turned away *)
    assert (Hlock : Spec.nowAfterRead w < snd (Spec.counters (authRow w))).
    { rewrite Hc, (frozen_now w Hfrozen). simpl. lia. }
    rewrite (POST_locked_run env Henv request code w Hparse Hf Hlock).
    eexists _, _. split; [reflexivity|].
    destruct (Z.ltb_spec (Z.of_nat (S j)) (authMaxAttempts env)); [lia|].
    split; [reflexivity|].
    cbn [storageFault authRow otpCalls tick].
    rewrite storageFault_afterRead, counters_afterRead, otpCalls_afterRead.
    split; [exact Hf|].
    split; [intros i; cbn [clock tick]; rewrite clock_afterRead; apply Hfrozen|].
    split; [exact Hc|]. lia.
Qed.

Lemma invalid_logins_run k : forall j w,
  after j w ->
  exists responses w',
    Scenario.logins (repeat request k) w = (Return responses, w') /\
    map status responses
    = map (fun i => if Z.of_nat i <? authMaxAttempts env then 401 else 423)
          (seq (S j) k) /\
    after (j + k) w'.
Proof.
  induction k as [|k IH]; intros j w Hw.
  - exists [], w. split; [reflexivity|]. split; [reflexivity|].
    rewrite Nat.add_0_r. exact Hw.
  - destruct (invalid_login_step j w Hw) as (response & w1 & Hrun & Hs & Hw1).
    destruct (IH (S j) w1 Hw1) as (others & w' & Hrest & Hss & Hw').
    exists (response :: others), w'. split.
    { simpl. erewrite bind_ok by exact Hrun.
      erewrite bind_ok by exact Hrest. reflexivity. }
    split; [simpl; rewrite Hs, Hss; reflexivity|].
    replace (j + S k)%nat with (S j + k)%nat by lia. exact Hw'.
Qed.

End Guessing.

(** X9.  Guessing runs into the lock.  From the zero state, with the
    clock standing at [t], [k] logins with an invalid code in a row are
    answered 401 as long as their number is below [maxAttempts] and 423
    from the [maxAttempts]-th on; the record counts [k] failures until
    then and afterwards holds the lock set at [t] with the counter back at
    0; and however large [k] is, the one-time-password library has been
    asked at most [maxAttempts] times. *)
Theorem repeated_failures_lock {P : Platform} (env : AppEnv) (w : World)
        (request : NextRequest) (code : jsstring) (t : Z) (k : nat) :
  getEnv ToNumber processEnv = inr env ->
  storageFault w = None ->
  Spec.frozen t w ->
  0 <= t ->
  Spec.counters (authRow w) = (0, 0) ->
  orElse (request_json request) Login.bodySchema_parse = inr code ->
  Spec.invalidCode env code t ->
  exists responses w',
    Scenario.logins (repeat request k) w = (Return responses, w') /\
    map status responses
    = map (fun i => if Z.of_nat i <? authMaxAttempts env then 401 else 423)
          (seq 1 k) /\
    Spec.counters (authRow w')
    = (if Z.of_nat k <? authMaxAttempts env then (Z.of_nat k, 0)
       else (0, t + authLockMinutes env * 60 * 1000)) /\
    (List.length (otpCalls w')
     <= List.length (otpCalls w)
        + Nat.min k (Z.to_nat (authMaxAttempts env)))%nat.
Proof.
  intros Henv Hf Hfrozen Ht Hc Hparse Hcode.
  pose proof (getEnv_minimums _ _ _ Henv) as (_ & Hmax & _).
  destruct (invalid_logins_run env Henv t Ht request code Hparse Hcode
              (List.length (otpCalls w)) k 0%nat w)
    as (responses & w' & Hrun & Hs & _ & _ & Hc' & Hcalls).
  { split; [exact Hf|]. split; [exact Hfrozen|]. split; [|simpl; lia].
    rewrite Hc. destruct (Z.ltb_spec (Z.of_nat 0) (authMaxAttempts env));
      [reflexivity|lia]. }
  exists responses, w'. split; [exact Hrun|]. split; [exact Hs|].
  split; [exact Hc'|exact Hcalls].
Qed.

Lemma repeated_failures_lock_witness :
  let w := Fixture.world None 1000 in
  let request := Fixture.login (lit "000000") in
  (getEnv (@ToNumber Fixture.platform) (@processEnv Fixture.platform)
   = inr Fixture.env /\
   storageFault w = None /\ Spec.frozen 1000 w /\ 0 <= 1000 /\
   Spec.counters (authRow w) = (0, 0) /\
   orElse (request_json request) Login.bodySchema_parse
   = inr (lit "000000") /\
   @Spec.invalidCode Fixture.platform Fixture.env (lit "000000") 1000) /\
  exists responses w',
    @Scenario.logins Fixture.platform (repeat request 12) w
    = (Return responses, w') /\
    map status responses
    = [401; 401; 401; 401; 401; 401; 401; 401; 401; 423; 423; 423] /\
    Spec.counters (authRow w') = (0, 1801000) /\
    (List.length (otpCalls w') <= 10)%nat.
Proof.
  intros w request.
  assert (Hfrozen : Spec.frozen 1000 w) by (intros i; reflexivity).
  assert (Hcode : @Spec.invalidCode Fixture.platform Fixture.env
                                    (lit "000000") 1000)
    by (right; reflexivity).
  split; [repeat split; solve [exact Hfrozen | exact Hcode | lia]|].
  destruct (repeated_failures_lock (P := Fixture.platform) Fixture.env w
              request (lit "000000") 1000 12 eq_refl eq_refl Hfrozen
              ltac:(lia) eq_refl eq_refl Hcode)
    as (responses & w' & Hrun & Hs & Hc & Hcalls).
  exists responses, w'. split; [exact Hrun|]. split; [exact Hs|].
  split; [exact Hc|exact Hcalls].
Defined.

(* ===================================================================== *)
(** ** A login that succeeds *)
(* ===================================================================== *)

Section Success.

Context {P : Platform}.
Variable env : AppEnv.
Hypothesis Henv : getEnv ToNumber processEnv = inr env.

Lemma setSessionCookie_run response w :
  Session.setSessionCookie response w
  = (Return (cookies_set response
               (Scenario.sessionCookie env
                  (jwsCompact (Spec.sessionJws env (clock w (ticks w))
                                               (clock w (S (ticks w))))))),
     tick (tick w)).
Proof.
  unfold Session.setSessionCookie.
  erewrite bind_ok by apply (createSessionToken_run env Henv).
  erewrite bind_ok by (apply loadEnv_run; exact Henv).
  reflexivity.
Qed.

Lemma POST_valid_run request code w :
  orElse (request_json request) Login.bodySchema_parse = inr code ->
  storageFault w = None ->
  snd (Spec.counters (authRow w)) <= Spec.nowAfterRead w ->
  isSixDigits (stripWhiteSpace code) = true ->
  otpVerify (totpSecretBase32 env) (stripWhiteSpace code) (Spec.nowAtVerify w)
  = inr true ->
  let i := (3 + ticks w + Spec.entityClockReads (authRow w))%nat in
  Login.POST request w
  = (Return (cookies_set (json SuccessBody 200)
               (Scenario.sessionCookie env
                  (jwsCompact (Spec.sessionJws env (clock w i)
                                               (clock w (S i)))))),
     Scenario.afterLogin code w).
Proof.
  intros Hparse Hf Hopen Hsix Hvalid i. unfold Login.POST. rewrite Hparse.
  erewrite bind_ok by (apply (getLockoutStatus_run env Henv); exact Hf).
  rewrite statusAt_computeStatus, isLocked_computeStatus.
  cbn [Lockout.lockUntilEpochMs Spec.readEntity].
  destruct (Z.ltb_spec (Spec.nowAfterRead w) (snd (Spec.counters (authRow w))));
    [lia|].
  rewrite (bind_ok _ _ _ true
             (noted (stripWhiteSpace code) (tick (tick (Spec.afterRead w))))).
  2:{ rewrite (verifyTotpCode_pass env code _ Henv Hsix).
      unfold otp_verifySync. cbn [clock ticks tick].
      rewrite clock_afterRead, ticks_afterRead.
      unfold Spec.nowAtVerify in Hvalid. rewrite Hvalid. reflexivity. }
  cbn [negb].
  erewrite bind_ok.
  2:{ apply (resetFailedAttempts_run env Henv). simpl.
      rewrite storageFault_afterRead. exact Hf. }
  rewrite setSessionCookie_run. unfold Scenario.afterLogin.
  cbn [clock ticks tick noted stored].
  rewrite !clock_afterRead, !ticks_afterRead. reflexivity.
Qed.

End Success.



Lemma later_counters k w :
  Spec.counters (authRow (Spec.later k w)) = Spec.counters (authRow w).
Proof. destruct (later_frame k w) as (-> & _). reflexivity. Qed.

(** X11.  Logged in means: the state route says so.  With the clock
    standing at [t] and a token library that reads back the (non-empty)
    token it has written, the cookie of a successful login, sent back with
    a status request, is accepted: the answer is 200,
    [authenticated: true], with a lockout status of no failed attempts
    and no lock. *)
Theorem login_then_state {P : Platform} (env : AppEnv) (w : World)
        (request : NextRequest) (code : jsstring) (t : Z) :
  getEnv ToNumber processEnv = inr env ->
  storageFault w = None ->
  Spec.frozen t w ->
  0 <= t ->
  snd (Spec.counters (authRow w)) <= t ->
  orElse (request_json request) Login.bodySchema_parse = inr code ->
  isSixDigits (stripWhiteSpace code) = true ->
  otpVerify (totpSecretBase32 env) (stripWhiteSpace code) t = inr true ->
  jwsParse (jwsCompact (Spec.sessionJws env t t))
  = Some (Spec.sessionJws env t t) ->
  jwsCompact (Spec.sessionJws env t t) <> [] ->
  exists response w' lockout w'',
    Login.POST request w = (Return response, w') /\
    status response = 200 /\
    State.GET (Scenario.carrying response) w'
    = (Return (json (StateBody true lockout) 200), w'') /\
    Types.isLocked lockout = false /\
    Types.failedAttempts lockout = 0 /\
    Types.retryAfterSeconds lockout = 0.
Proof.
  intros Henv Hf Hfrozen Ht Hopen Hparse Hsix Hvalid Hback Hsome.
  pose proof (getEnv_minimums _ _ _ Henv) as (Httl & _ & _).
  assert (Hopen' : snd (Spec.counters (authRow w)) <= Spec.nowAfterRead w)
    by (unfold Spec.nowAfterRead; rewrite Hfrozen; exact Hopen).
  assert (Hvalid' : otpVerify (totpSecretBase32 env) (stripWhiteSpace code)
                              (Spec.nowAtVerify w) = inr true)
    by (unfold Spec.nowAtVerify; rewrite Hfrozen; exact Hvalid).
  pose proof (POST_valid_run env Henv request code w Hparse Hf Hopen' Hsix
                Hvalid') as Hrun.
  cbv zeta in Hrun. rewrite !Hfrozen in Hrun. rewrite Hrun.
  set (w' := Scenario.afterLogin code w).
  assert (Hclock' : clock w' = clock w).
  { unfold w', Scenario.afterLogin. cbn [clock tick noted stored].
    apply clock_afterRead. }
  assert (Hf' : storageFault w' = None).
  { unfold w', Scenario.afterLogin. cbn [storageFault tick noted stored].
    rewrite storageFault_afterRead. exact Hf. }
  assert (Hc' : Spec.counters (authRow w') = (0, 0)) by reflexivity.
  eexists _, w', _, _. split; [reflexivity|]. split; [reflexivity|].
  unfold State.GET, Session.isAuthenticatedRequest, Scenario.carrying.
  cbn [setCookies cookies_set json map requestCookies cookies_get
       name cookieValue Scenario.sessionCookie].
  rewrite str_eqb_refl.
  destruct (jwsCompact (Spec.sessionJws env t t)) as [|c token] eqn:Etoken;
    [contradiction|].
  rewrite <- Etoken in Hback |- *.
  erewrite bind_ok.
  2:{ apply (verifySessionToken_own env Henv t t w'). exact Hback. }
  rewrite Hclock', Hfrozen.
  assert (Hlive : (Jose.epoch t + Jose.secsOfHours (sessionTtlHours env)
                   <=? Jose.epoch t) = false).
  { apply Z.leb_gt. unfold Jose.secsOfHours. lia. }
  rewrite Hlive. cbn [negb].
  erewrite bind_ok
    by (apply (getLockoutStatus_run env Henv); cbn [storageFault tick];
        exact Hf').
  split; [reflexivity|].
  rewrite statusAt_computeStatus, isLocked_computeStatus.
  assert (Hnow : Spec.nowAfterRead (tick w') = t).
  { unfold Spec.nowAfterRead. cbn [clock tick]. rewrite Hclock'.
    apply Hfrozen. }
  rewrite Hnow. unfold Spec.readEntity. cbn [authRow tick]. rewrite Hc'.
  cbn [fst snd Lockout.failedAttempts Lockout.lockUntilEpochMs
       Spec.computeStatus Types.failedAttempts Types.retryAfterSeconds].
  split; [apply Z.ltb_ge; exact Ht|]. split; [reflexivity|].
  pose proof (ceilDiv_bounds (0 - t)). lia.
Qed.

Lemma login_then_state_witness :
  let w := Fixture.world (Some (Fixture.record 7 0)) 5000 in
  let request := Fixture.login (lit "123456") in
  (getEnv (@ToNumber Fixture.platform) (@processEnv Fixture.platform)
   = inr Fixture.env /\
   storageFault w = None /\ Spec.frozen 5000 w /\ 0 <= 5000 /\
   snd (Spec.counters (authRow w)) <= 5000 /\
   orElse (request_json request) Login.bodySchema_parse
   = inr (lit "123456") /\
   isSixDigits (stripWhiteSpace (lit "123456")) = true /\
   @otpVerify Fixture.platform (totpSecretBase32 Fixture.env)
              (stripWhiteSpace (lit "123456")) 5000 = inr true /\
   @jwsParse Fixture.platform
     (@jwsCompact Fixture.platform
        (@Spec.sessionJws Fixture.platform Fixture.env 5000 5000))
   = Some (@Spec.sessionJws Fixture.platform Fixture.env 5000 5000) /\
   @jwsCompact Fixture.platform
     (@Spec.sessionJws Fixture.platform Fixture.env 5000 5000) <> []) /\
  exists response w' lockout w'',
    @Login.POST Fixture.platform request w = (Return response, w') /\
    @State.GET Fixture.platform (Scenario.carrying response) w'
    = (Return (json (StateBody true lockout) 200), w'').
Proof.
  intros w request.
  assert (Hfrozen : Spec.frozen 5000 w) by (intros i; reflexivity).
  assert (Hopen : snd (Spec.counters (authRow w)) <= 5000)
    by (vm_compute; congruence).
  assert (Hsome : @jwsCompact Fixture.platform
                    (@Spec.sessionJws Fixture.platform Fixture.env 5000 5000)
                  <> []) by (vm_compute; discriminate).
  split.
  { repeat split; solve [exact Hfrozen | exact Hopen | exact Hsome | lia]. }
  destruct (login_then_state (P := Fixture.platform) Fixture.env w request
              (lit "123456") 5000 eq_refl eq_refl Hfrozen ltac:(lia) Hopen
              eq_refl eq_refl eq_refl eq_refl Hsome)
    as (response & w' & lockout & w'' & Hrun & _ & Hget & _).
  exists response, w', lockout, w''. split; [exact Hrun|exact Hget].
Defined.

(** X12.  Checking a request for a session is harmless.
    [isAuthenticatedRequest] always answers with a boolean: it never
    throws, whatever the cookie holds and even when the configuration
    does not load.  It reads the clock at most once and touches neither
    the store nor the one-time-password library.  Without a session
    cookie, or with an empty one, the answer is [false] and nothing at
    all has happened; the answer [true] needs a cookie that parses as a
    token carrying this server's signature. *)
Theorem isAuthenticatedRequest_safe {P : Platform} (request : NextRequest)
        (w : World) :
  exists b k,
    Session.isAuthenticatedRequest request w = (Return b, Spec.later k w) /\
    (k <= 1)%nat /\
    ((cookies_get Session.SESSION_COOKIE (requestCookies request) = None \/
      cookies_get Session.SESSION_COOKIE (requestCookies request) = Some []) ->
     b = false /\ k = 0%nat) /\
    (b = true ->
     exists token env jws,
       cookies_get Session.SESSION_COOKIE (requestCookies request)
       = Some token /\
       getEnv ToNumber processEnv = inr env /\
       jwsParse token = Some jws /\
       signature jws = mac (sessionSecret env) Session.SESSION_ALGO
                           (payload jws) /\
       authenticated (payload jws) = Some (VBool true)).
Proof.
  unfold Session.isAuthenticatedRequest.
  destruct (cookies_get Session.SESSION_COOKIE (requestCookies request))
    as [[|c rest]|] eqn:Hcookie.
  - exists false, 0%nat. repeat split; auto; discriminate.
  - set (token := c :: rest).
    cbv beta iota zeta delta
        [Session.verifySessionToken tryCatch bind Session.getSecretKey
         loadEnv Jose.jwtVerify ret throw Date_now].
    destruct (getEnv ToNumber processEnv) as [e|env] eqn:Henv.
    { exists false, 0%nat. repeat split; auto; discriminate. }
    destruct (jwsParse token) as [jws|] eqn:Hparse.
    2:{ exists false, 0%nat. repeat split; auto; discriminate. }
    destruct (existsb (str_eqb (alg jws)) [Session.SESSION_ALGO]) eqn:Halg;
      cbn [negb].
    2:{ exists false, 0%nat. repeat split; auto; discriminate. }
    destruct (str_eqb (signature jws)
                      (mac (sessionSecret env) (alg jws) (payload jws)))
      eqn:Hsig; cbn [negb].
    2:{ exists false, 0%nat. repeat split; auto; discriminate. }
    assert (Ealg : alg jws = Session.SESSION_ALGO).
    { simpl in Halg. rewrite orb_false_r in Halg.
      apply str_eqb_eq in Halg. exact Halg. }
    apply str_eqb_eq in Hsig. rewrite Ealg in Hsig.
    assert (Htrue : Session.isTrue (authenticated (payload jws)) = true ->
                    exists token0 env0 jws0,
                      Some token = Some token0 /\
                      @inr thrown AppEnv env = inr env0 /\
                      jwsParse token0 = Some jws0 /\
                      signature jws0
                      = mac (sessionSecret env0) Session.SESSION_ALGO
                            (payload jws0) /\
                      authenticated (payload jws0) = Some (VBool true)).
    { intros Hauth. exists token, env, jws. repeat split; auto.
      destruct (authenticated (payload jws)) as [[| [|] | | | |]|];
        try discriminate. reflexivity. }
    destruct (exp (payload jws)) as [e|].
    + destruct (e <=? Jose.epoch (clock w (ticks w))).
      * exists false, 1%nat. split; [reflexivity|]. split; [lia|].
        split; [intros [Hno|Hno]; discriminate|discriminate].
      * eexists _, 1%nat. split; [reflexivity|]. split; [lia|].
        split; [intros [Hno|Hno]; discriminate|exact Htrue].
    + eexists _, 1%nat. split; [reflexivity|]. split; [lia|].
      split; [intros [Hno|Hno]; discriminate|exact Htrue].
  - exists false, 0%nat. repeat split; auto; discriminate.
Qed.


(* ===================================================================== *)
(** ** The code guard and white space *)
(* ===================================================================== *)

(** X14.  White space in a code does not count.  Two submitted codes that
    differ only in white space (blanks, tabs, line ends, anywhere in the
    code) are treated alike by [verifyTotpCode]: the same verdict, the
    same call to the one-time-password library or none, the same error if
    the library throws. *)
Theorem verifyTotpCode_ignores_white_space {P : Platform}
        (code other : jsstring) (w : World) :
  stripWhiteSpace code = stripWhiteSpace other ->
  Totp.verifyTotpCode code w = Totp.verifyTotpCode other w.
Proof.
  intros E. unfold Totp.verifyTotpCode. rewrite E. reflexivity.
Qed.

Lemma verifyTotpCode_ignores_white_space_witness :
  stripWhiteSpace (lit "123 456") = stripWhiteSpace (lit "  12 34 56 ") /\
  @Totp.verifyTotpCode Fixture.platform (lit "123 456") (Fixture.world None 7)
  = @Totp.verifyTotpCode Fixture.platform (lit "  12 34 56 ")
                         (Fixture.world None 7).
Proof.
  split; [reflexivity|].
  apply (verifyTotpCode_ignores_white_space (P := Fixture.platform)).
  reflexivity.
Defined.

(* ===================================================================== *)
(** ** The connection string *)
(* ===================================================================== *)

Lemma split_cons sep s : exists piece more, Azure.split sep s = piece :: more.
Proof.
  induction s as [|c r (piece & more & E)]; simpl.
  - eauto.
  - destruct (unit_eqb c sep); [eauto|]. rewrite E. eauto.
Qed.

Lemma join_split sep s : Azure.join sep (Azure.split sep s) = s.
Proof.
  induction s as [|c r IH]; simpl; [reflexivity|].
  destruct (split_cons sep r) as (piece & more & E).
  destruct (unit_eqb c sep) eqn:Hc.
  - apply N.eqb_eq in Hc. subst c. rewrite E in *. simpl.
    simpl in IH. rewrite IH. reflexivity.
  - rewrite E in *. simpl in *. destruct more; simpl in *; congruence.
Qed.

Lemma split_plain sep s : ~ In sep s -> Azure.split sep s = [s].
Proof.
  induction s as [|c r IH]; simpl; intros Hno; [reflexivity|].
  destruct (unit_eqb c sep) eqn:Hc.
  - apply N.eqb_eq in Hc. exfalso. apply Hno. left. exact Hc.
  - rewrite IH by tauto. reflexivity.
Qed.

Lemma split_app sep a b :
  ~ In sep a ->
  Azure.split sep (a ++ sep :: b) = a :: Azure.split sep b.
Proof.
  induction a as [|c r IH]; simpl; intros Hno.
  - unfold unit_eqb. rewrite N.eqb_refl. reflexivity.
  - destruct (unit_eqb c sep) eqn:Hc.
    + apply N.eqb_eq in Hc. exfalso. apply Hno. left. exact Hc.
    + rewrite IH by tauto. reflexivity.
Qed.

Lemma join_cons sep piece more :
  more <> [] ->
  Azure.join sep (piece :: more) = piece ++ sep :: Azure.join sep more.
Proof. destruct more; [contradiction|reflexivity]. Qed.

Lemma split_connectionString settings :
  Forall (fun kv => ~ In Azure.semicolon (fst kv) /\
                    ~ In Azure.semicolon (snd kv)) settings ->
  settings <> [] ->
  Azure.split Azure.semicolon (Scenario.connectionString settings)
  = map (fun kv => fst kv ++ Azure.equals :: snd kv) settings.
Proof.
  unfold Scenario.connectionString.
  induction 1 as [|kv rest [Hk Hv] Hrest IH]; intros Hne; [contradiction|].
  assert (Hentry : ~ In Azure.semicolon (fst kv ++ Azure.equals :: snd kv)).
  { rewrite in_app_iff. simpl. intros [H|[H|H]]; try tauto.
    vm_compute in H. discriminate. }
  destruct rest as [|kv' rest'].
  - simpl. rewrite split_plain by exact Hentry. reflexivity.
  - rewrite map_cons, join_cons by discriminate.
    rewrite split_app by exact Hentry.
    rewrite IH by discriminate. reflexivity.
Qed.

Lemma firstPart_settings settings key :
  Forall (fun kv => ~ In Azure.equals (fst kv)) settings ->
  Azure.firstPart (map (fun kv => fst kv ++ Azure.equals :: snd kv) settings)
                  key
  = Scenario.setting key settings.
Proof.
  induction 1 as [|[k v] rest Hk _ IH]; simpl; [reflexivity|].
  simpl in Hk. rewrite split_app by exact Hk.
  rewrite join_split, IH. reflexivity.
Qed.

Lemma getConnectionPart_at settings key :
  Forall (fun kv => ~ In Azure.semicolon (fst kv) /\
                    ~ In Azure.equals (fst kv) /\
                    ~ In Azure.semicolon (snd kv)) settings ->
  settings <> [] ->
  Azure.getConnectionPart (Scenario.connectionString settings) key
  = Scenario.setting key settings.
Proof.
  intros Hwf Hne. unfold Azure.getConnectionPart.
  rewrite split_connectionString;
    [|eapply Forall_impl; [|exact Hwf]; intros kv; cbv beta; tauto
     |exact Hne].
  apply firstPart_settings.
  eapply Forall_impl; [|exact Hwf]. intros kv. cbv beta. tauto.
Qed.

(** X15.  Reading the connection string.  For a connection string
    written [key=value;key=value;...], with no [;] in keys or values and
    no [=] in keys, [getConnectionPart] returns the value of the first
    setting of that name, all of it - a value may hold [=], as a base64
    account key does - and [null] when there is none. *)
Theorem getConnectionPart_finds_setting
        (settings : list (jsstring * jsstring)) (key : jsstring) :
  Forall (fun kv => ~ In Azure.semicolon (fst kv) /\
                    ~ In Azure.equals (fst kv) /\
                    ~ In Azure.semicolon (snd kv)) settings ->
  settings <> [] ->
  Azure.getConnectionPart (Scenario.connectionString settings) key
  = Scenario.setting key settings.
Proof. apply getConnectionPart_at. Qed.

Lemma getConnectionPart_finds_setting_witness :
  let settings :=
    [(lit "DefaultEndpointsProtocol", lit "https");
     (lit "AccountName", lit "vault");
     (lit "AccountKey", lit "a2V5PT0=");
     (lit "EndpointSuffix", lit "core.windows.net")] in
  (Forall (fun kv => ~ In Azure.semicolon (fst kv) /\
                     ~ In Azure.equals (fst kv) /\
                     ~ In Azure.semicolon (snd kv)) settings /\
   settings <> []) /\
  Azure.getConnectionPart
    (lit "DefaultEndpointsProtocol=https;AccountName=vault;AccountKey=a2V5PT0=;EndpointSuffix=core.windows.net")
    (lit "AccountKey")
  = Some (lit "a2V5PT0=").
Proof.
  intros settings.
  assert (Hwf : Forall (fun kv => ~ In Azure.semicolon (fst kv) /\
                                  ~ In Azure.equals (fst kv) /\
                                  ~ In Azure.semicolon (snd kv)) settings).
  { repeat constructor; simpl; intros H;
      repeat (destruct H as [H|H]; [vm_compute in H; discriminate|]);
      exact H. }
  assert (Hne : settings <> []) by discriminate.
  split; [split; assumption|].
  exact (getConnectionPart_finds_setting settings (lit "AccountKey") Hwf Hne).
Defined.



(* ===================================================================== *)
(** ** Item helpers *)
(* ===================================================================== *)

Lemma isFileNameUnit_hyphen : Items.isFileNameUnit Items.hyphen = true.
Proof. reflexivity. Qed.

Lemma sanitized_unit c :
  Items.isFileNameUnit (if Items.isFileNameUnit c then c else Items.hyphen)
  = true.
Proof.
  destruct (Items.isFileNameUnit c) eqn:E; [exact E|reflexivity].
Qed.

Lemma fileNameUnit_not_white c :
  Items.isFileNameUnit c = true -> isWhiteSpace c = false.
Proof.
  intros Hsafe. destruct (isWhiteSpace c) eqn:Hwhite; [exfalso|reflexivity].
  unfold Items.isFileNameUnit in Hsafe. unfold isWhiteSpace in Hwhite.
  repeat rewrite ?orb_true_iff, ?andb_true_iff, ?N.leb_le, ?N.eqb_eq
    in Hsafe.
  repeat rewrite ?orb_true_iff, ?andb_true_iff, ?N.leb_le, ?N.eqb_eq
    in Hwhite.
  lia.
Qed.

(** X17.  Sanitized file names.  [sanitizeFileName] keeps the length of
    the name; every code unit of the result is a letter, a digit, [.],
    [_] or [-], so the result holds no [/] and no white space; a name
    that is already of that kind, and only such a name, is left as it is;
    sanitizing twice changes nothing more. *)
Theorem sanitizeFileName_safe (name : jsstring) :
  List.length (Items.sanitizeFileName name) = List.length name /\
  forallb Items.isFileNameUnit (Items.sanitizeFileName name) = true /\
  ~ In 47%N (Items.sanitizeFileName name) /\
  Forall (fun c => isWhiteSpace c = false) (Items.sanitizeFileName name) /\
  (Items.sanitizeFileName name = name <->
   forallb Items.isFileNameUnit name = true) /\
  Items.sanitizeFileName (Items.sanitizeFileName name)
  = Items.sanitizeFileName name.
Proof.
  assert (Hsafe : forallb Items.isFileNameUnit (Items.sanitizeFileName name)
                  = true).
  { unfold Items.sanitizeFileName. induction name as [|c r IH]; simpl;
      [reflexivity|]. rewrite sanitized_unit, IH. reflexivity. }
  assert (Hfix : forall s, forallb Items.isFileNameUnit s = true ->
                           Items.sanitizeFileName s = s).
  { unfold Items.sanitizeFileName. induction s as [|c r IH]; simpl;
      [reflexivity|]. intros H. apply andb_true_iff in H.
    destruct H as [Hc Hr]. rewrite Hc, IH by exact Hr. reflexivity. }
  split; [apply length_map|]. split; [exact Hsafe|]. split.
  { intros Hin. rewrite forallb_forall in Hsafe.
    specialize (Hsafe _ Hin). vm_compute in Hsafe. discriminate. }
  split.
  { apply Forall_forall. intros c Hin. rewrite forallb_forall in Hsafe.
    apply fileNameUnit_not_white, Hsafe, Hin. }
  split.
  { split; [intros E; rewrite <- E; exact Hsafe|apply Hfix]. }
  apply Hfix, Hsafe.
Qed.

(** X18.  Stored titles.  [toStoredTitle] stores a title without the
    white space around it, and stores none rather than an empty one: the
    result, when there is one, is the trimmed title, not empty and with
    no white space at either end; there is none exactly when the title is
    missing or nothing but white space; a stored title is stored again as
    it is. *)
Theorem toStoredTitle_clean (title : option jsstring) :
  (forall stored,
     Items.toStoredTitle title = Some stored ->
     stored <> [] /\ Scenario.clean stored /\
     (exists given, title = Some given /\ stored = trim given) /\
     Items.toStoredTitle (Some stored) = Some stored) /\
  (Items.toStoredTitle title = None <->
   title = None \/ exists given, title = Some given /\ Scenario.blank given).
Proof.
  assert (Hsome : forall given,
            Items.toStoredTitle (Some given)
            = match trim given with [] => None | s => Some s end).
  { intros [|c r]; [reflexivity|]. unfold Items.toStoredTitle.
    destruct (trim (c :: r)); reflexivity. }
  split.
  - intros stored. destruct title as [given|]; [|discriminate].
    rewrite Hsome. destruct (trim given) as [|c r] eqn:E; [discriminate|].
    intros [= <-]. rewrite <- E.
    split; [rewrite E; discriminate|].
    split; [apply trim_clean|]. split; [eauto|].
    rewrite Hsome, (trim_fixed _ (trim_clean given)), E. reflexivity.
  - destruct title as [given|].
    + rewrite Hsome. split.
      * intros H. right. exists given. split; [reflexivity|].
        apply trim_blank. destruct (trim given); [reflexivity|discriminate].
      * intros [H|(g & [= <-] & Hb)]; [discriminate|].
        apply trim_blank in Hb. rewrite Hb. reflexivity.
    + split; [auto|reflexivity].
Qed.

(* ===================================================================== *)
(** ** The item route *)
(* ===================================================================== *)

(** X19.  No session, no deletion.  Whatever [deleteItemById] does, the
    [DELETE] route does not reach it for a request without a session
    cookie, with an empty one, or with one that [verifySessionToken]
    turns down: the answer is 401 [Unauthorized] and nothing has happened
    but readings of the clock.  For a request with a session, a missing
    id is answered 400, again without a call, and otherwise
    [deleteItemById] runs once with that id, right after the check; its
    error, if any, is the route's. *)
Theorem item_delete_requires_session {P : Platform}
        (deleteItemById : jsstring -> M unit) (request : NextRequest)
        (id : jsstring) (w : World) :
  exists authenticated k,
    Session.isAuthenticatedRequest request w
    = (Return authenticated, Spec.later k w) /\
    (authenticated = false ->
     ItemRoute.DELETE deleteItemById request id w
     = (Return (json (ErrorBody (lit "Unauthorized") None) 401),
        Spec.later k w)) /\
    (authenticated = true -> id = [] ->
     ItemRoute.DELETE deleteItemById request id w
     = (Return (json (ErrorBody (lit "Missing id") None) 400),
        Spec.later k w)) /\
    (authenticated = true -> id <> [] ->
     ItemRoute.DELETE deleteItemById request id w
     = match deleteItemById id (Spec.later k w) with
       | (Return _, w') => (Return (json SuccessBody 200), w')
       | (Throw e, w') => (Throw e, w')
       end) /\
    ((forall token,
        cookies_get Session.SESSION_COOKIE (requestCookies request)
        = Some token ->
        token <> [] ->
        fst (Session.verifySessionToken token w) = Return false) ->
     authenticated = false).
Proof.
  destruct (isAuthenticatedRequest_later request w) as (b & k & Hauth).
  exists b, k. split; [exact Hauth|].
  unfold ItemRoute.DELETE. erewrite bind_ok by exact Hauth.
  split; [intros ->; reflexivity|].
  split; [intros -> ->; reflexivity|].
  split.
  - intros -> Hid. destruct id as [|c rest]; [contradiction|].
    cbn [negb]. unfold bind, ret.
    destruct (deleteItemById (c :: rest) (Spec.later k w)) as [[[]|e] w'];
      reflexivity.
  - intros Hbad. unfold Session.isAuthenticatedRequest in Hauth.
    destruct (cookies_get Session.SESSION_COOKIE (requestCookies request))
      as [[|c rest]|].
    + injection Hauth as <- _. reflexivity.
    + specialize (Hbad (c :: rest) eq_refl ltac:(discriminate)).
      rewrite Hauth in Hbad. injection Hbad as <-. reflexivity.
    + injection Hauth as <- _. reflexivity.
Qed.
